(** * LogAdapter: the structured logging adapter of logging_utils/LogAdapter.go

    A shallow embedding of the adapter: severity filter, record formatter,
    console and file sinks, the daily rotation job and the adapter's
    life cycle.  The adapter talks to four collaborators that are not part
    of the package (the operating system, the Go runtime, lumberjack and
    cron).  What they answer is an input of the model ([Extern]); what the
    adapter asks of them is recorded in the [trace] of the [World]. *)

From Stdlib Require Import ZArith Ascii.
From Stdlib Require Import Numbers.DecimalString Numbers.DecimalFacts.
From Stdlib Require Import Numbers.DecimalPos Numbers.DecimalZ.
From stdpp Require Import base strings gmap list.

Local Open Scope Z_scope.

(** ** Go values *)

(** A value of interface type [error]; [error_text] is what its [Error()]
    method returns. *)
Record error := errorString { error_text : string }.

(** A value of type [interface{}], as far as callers of the log methods
    can build one for the variadic [options]. *)
#[warnings="-register-all"]
Inductive iface :=
| inil
| ibool (b : bool)
| iint (n : Z)
| istring (s : string)
| ierror (e : error)
| islice (xs : list iface).

(** ** Collaborating packages *)

Module config.

(** Modelled from the spec: the declaration of [config.LogConfig] is not
    among the sources.  The fields are the ones the adapter reads
    ([Level], [Console], [File], [Directory], [MaxSize], [MaxBackup],
    [MaxAge], [Compress]), with the types the spec gives them. *)
Record LogConfig := {
  Level : string;
  Console : bool;
  File : bool;
  Directory : string;
  MaxSize : Z;
  MaxBackup : Z;
  MaxAge : Z;
  Compress : bool
}.

(** Modelled from the spec: the declaration of [config.AppConfig] is not
    among the sources; the adapter reads [AppName] and [MsName]. *)
Record AppConfig := {
  AppName : string;
  MsName : string
}.

End config.

Module lumberjack.

(** The exported fields of [lumberjack.Logger] that [initLogFile] sets.
    The file behind a [Logger] belongs to lumberjack: the model keeps the
    struct on a heap and records the calls made on its address. *)
Record Logger := {
  Filename : string;
  LocalTime : bool;
  MaxSize : Z;
  MaxBackups : Z;
  MaxAge : Z;
  Compress : bool
}.

End lumberjack.

Module cron.

(** A [cron.Cron]: the registered entries (schedule and job) and whether
    the scheduler has been started and not stopped since.  A schedule is
    kept as its text; "@daily", the only one the adapter registers, is one
    of cron's predefined schedules, so [AddFunc] accepts it. *)
Record Cron (Job : Type) := {
  entries : list (string * Job);
  running : bool
}.
Arguments entries {Job} _.
Arguments running {Job} _.

Definition New {Job} : Cron Job := {| entries := []; running := false |}.

Definition AddFunc {Job} (spec : string) (cmd : Job) (c : Cron Job)
  : Cron Job :=
  {| entries := entries c ++ [(spec, cmd)]; running := running c |}.

Definition Start {Job} (c : Cron Job) : Cron Job :=
  {| entries := entries c; running := true |}.

Definition Stop {Job} (c : Cron Job) : Cron Job :=
  {| entries := entries c; running := false |}.

End cron.

(** ** The adapter and the world it runs in *)

(** [type LogAdapter struct].  [logger] is a pointer: [None] is nil,
    [Some h] the address of a [lumberjack.Logger] on the heap. *)
Record LogAdapter := {
  cfg : config.LogConfig;
  logger : option nat;
  appName : string;
  msName : string
}.

(** The function literal handed to [cr.AddFunc]: it closes over the
    adapter [a], whose fields are not assigned after construction. *)
Inductive Job := RotateJob (a : LogAdapter).

(** The statement that prints a console line. *)
Inductive site :=
| in_formatMessage
| in_logToConsole
| in_logToFile
| in_rotation_job.

(** A call the adapter makes on a collaborator.  The receiver of a
    lumberjack method is the pointer it is invoked on. *)
Inductive event :=
| Println (at_ : site) (text : string)
| Logger_Write (recv : option nat) (p : string)
| Logger_Rotate (recv : option nat)
| Logger_Close (recv : option nat).

Record World := {
  loggers : list lumberjack.Logger;
  cr : option (cron.Cron Job);
  detached : list (cron.Cron Job);
  trace : list event
}.

(** What one call of a log method gets back from outside the package. *)
Record Extern := {
  (* time.Now().Format("2006-01-02 15:04:05.0000") *)
  time_Now : string;
  (* what %v prints for the value of uuid.NewV4() *)
  uuid_NewV4 : string;
  (* the stack text of the calling goroutine, before truncation *)
  runtime_Stack : string;
  (* os.Hostname() *)
  os_Hostname : string * option error;
  (* the error result of a.logger.Write *)
  Write_err : option error
}.

(** ** Returning and panicking *)

Inductive panic :=
| panic_string (s : string)
| panic_goid (idField : string)
| panic_nil_dereference
| panic_index_out_of_range.

Inductive Outcome (A : Type) :=
| Returns (v : A) (w : World)
| Panics (p : panic) (w : World).
Arguments Returns {A} v w.
Arguments Panics {A} p w.

Definition M (A : Type) : Type := World -> Outcome A.

#[global] Instance M_ret : MRet M := fun A v w => Returns v w.

#[global] Instance M_bind : MBind M := fun A B f m w =>
  match m w with
  | Returns v w' => f v w'
  | Panics p w' => Panics p w'
  end.

Definition raise {A} (p : panic) : M A := fun w => Panics p w.

Definition emit (e : event) : M unit := fun w =>
  Returns tt {| loggers := loggers w; cr := cr w; detached := detached w;
                trace := trace w ++ [e] |}.

(** A method of [*lumberjack.Logger] starts by locking the receiver's
    mutex: invoked on nil it faults, otherwise it answers [res]. *)
Definition on_logger {A} (call : option nat -> event) (recv : option nat)
    (res : A) : M A :=
  emit (call recv);;
  match recv with
  | None => raise panic_nil_dereference
  | Some _ => mret res
  end.

(** ** Severity filter *)

(** The map literal of [isLoggable]. *)
Definition l : gmap string Z :=
  <["INFO" := 4]> (<["WARN" := 3]> (<["DEBUG" := 2]> (<["ERROR" := 1]> ∅))).

(** Indexing a Go map: the zero value for a missing key. *)
Definition index (m : gmap string Z) (k : string) : Z := default 0 (m !! k).

Definition isLoggable (a : LogAdapter) (logLevel : string) : bool :=
  index l logLevel >=? index l (config.Level (cfg a)).

(** The ranking as the specification words it: ERROR=1, DEBUG=2, WARN=3,
    INFO=4 and 0 for any other name. *)
Definition rank (name : string) : Z :=
  if decide (name = "ERROR") then 1
  else if decide (name = "DEBUG") then 2
  else if decide (name = "WARN") then 3
  else if decide (name = "INFO") then 4
  else 0.

Definition known (name : string) : Prop :=
  name = "ERROR" \/ name = "DEBUG" \/ name = "WARN" \/ name = "INFO".

(** ** Goroutine identifier *)

(** [s[n:]] *)
Fixpoint slice_from (n : nat) (s : string) : string :=
  match n, s with
  | O, _ => s
  | S n', String _ s' => slice_from n' s'
  | S _, EmptyString => EmptyString
  end.

(** [strings.TrimPrefix] *)
Definition TrimPrefix (s prefix : string) : string :=
  if String.prefix prefix s then slice_from (String.length prefix) s else s.

(** The white space of [strings.Fields] among the bytes below 0x80: tab,
    line feed, vertical tab, form feed, carriage return and space.  The
    stack text is ASCII; the white space beyond ASCII (U+0085, U+00A0 and
    the like) is left out. *)
Definition isSpace (c : Ascii.ascii) : bool :=
  match Ascii.N_of_ascii c with
  | 9 | 10 | 11 | 12 | 13 | 32 => true
  | _ => false
  end%N.

(** [strings.Fields], with the field being read as accumulator. *)
Fixpoint Fields_from (field s : string) : list string :=
  match s with
  | EmptyString => if decide (field = "") then [] else [field]
  | String c s' =>
      if isSpace c
      then (if decide (field = "") then Fields_from "" s'
            else field :: Fields_from "" s')
      else Fields_from (field +:+ String c "") s'
  end.

Definition Fields (s : string) : list string := Fields_from "" s.

(** The value of a non-empty string of decimal digits. *)
Definition digits (s : string) : option Z :=
  if decide (s = "") then None
  else Z.of_uint <$> NilEmpty.uint_of_string s.

(** [strconv.Atoi] for a 64-bit [int]: an optional sign, then decimal
    digits; [None] stands for a non-nil error (bad syntax or a value out
    of range). *)
Definition Atoi (s : string) : option Z :=
  let v := match s with
           | String c s' =>
               if decide (c = "+"%char) then digits s'
               else if decide (c = "-"%char) then Z.opp <$> digits s'
               else digits s
           | EmptyString => digits s
           end in
  v ≫= fun n : Z =>
    if (- 2 ^ 63 <=? n) && (n <? 2 ^ 63) then Some n else None.

(** [strconv.Itoa], which is what the verb %v prints for an [int]. *)
Definition Itoa (n : Z) : string := NilZero.string_of_int (Z.to_int n).

Definition goid (e : Extern) : M Z :=
  (* var buf [64]byte; n := runtime.Stack(buf[:], false) *)
  let buf := String.substring 0 64 (runtime_Stack e) in
  match Fields (TrimPrefix buf "goroutine ") with
  | [] => raise panic_index_out_of_range
  | idField :: _ =>
      match Atoi idField with
      | Some id => mret id
      | None => raise (panic_goid idField)
      end
  end.

(** ** Message formatter *)

Definition formatMessage (a : LogAdapter) (logLevel message : string)
    (options : list iface) (e : Extern) : M string :=
  let now := time_Now e in
  let uuidV := uuid_NewV4 e in
  goId ← goid e;
  let '(hostname, err) := os_Hostname e in
  (if err is Some _
   then emit (Println in_formatMessage "Error occurred at requesting host name")
   else mret tt);;
  let loggerName := "application-log" in
  let appName := appName a in
  let msName := msName a in
  (* "%s|[%v]|%s|%s|%s|%s|%s|%v|%s" *)
  mret (now +:+ "|[" +:+ Itoa goId +:+ "]|" +:+ hostname +:+ "|" +:+ logLevel
        +:+ "|" +:+ loggerName +:+ "|" +:+ appName +:+ "|" +:+ msName
        +:+ "|" +:+ uuidV +:+ "|" +:+ message).

(** ** Sinks *)

Definition LF : string := String (Ascii.ascii_of_nat 10) "".

Definition logToConsole (a : LogAdapter) (message : string) : M unit :=
  if config.Console (cfg a)
  then emit (Println in_logToConsole message)
  else mret tt.

Definition logToFile (a : LogAdapter) (message : string) (e : Extern)
  : M unit :=
  if negb (config.File (cfg a)) then mret tt
  else
    err ← on_logger (fun recv => Logger_Write recv (message +:+ LF))
                    (logger a) (Write_err e);
    match err with
    | Some err => emit (Println in_logToFile (error_text err))
    | None => mret tt
    end.

(** ** The log methods *)

Definition log (a : LogAdapter) (logLevel message : string)
    (options : list iface) (e : Extern) : M unit :=
  if negb (isLoggable a logLevel) then mret tt
  else
    (* the slice [options] is passed on as one operand *)
    m ← formatMessage a logLevel message [islice options] e;
    logToConsole a m;;
    logToFile a m e.

Definition Error (a : LogAdapter) (message : string) (options : list iface)
    (e : Extern) : M unit :=
  log a "ERROR" message [islice options] e.

Definition Debug (a : LogAdapter) (message : string) (options : list iface)
    (e : Extern) : M unit :=
  log a "DEBUG" message [] e.

Definition Info (a : LogAdapter) (message : string) (options : list iface)
    (e : Extern) : M unit :=
  log a "INFO" message [islice options] e.

Definition Warn (a : LogAdapter) (message : string) (options : list iface)
    (e : Extern) : M unit :=
  log a "WARN" message [islice options] e.

(** ** Life cycle *)

(** [&lumberjack.Logger{...}]: the struct is put at a fresh address. *)
Definition new_Logger (lg : lumberjack.Logger) : M nat := fun w =>
  Returns (length (loggers w))
          {| loggers := loggers w ++ [lg]; cr := cr w; detached := detached w;
             trace := trace w |}.

(** [cr = cron.New()]: the package variable is overwritten.  A scheduler
    it pointed to is left as it is, but nothing refers to it any more. *)
Definition cr_New : M unit := fun w =>
  Returns tt
          {| loggers := loggers w; cr := Some cron.New;
             detached := detached w ++ option_list (cr w); trace := trace w |}.

(** A method of [*cron.Cron] invoked on the package variable [cr]. *)
Definition on_cr (method : cron.Cron Job -> cron.Cron Job) : M unit := fun w =>
  match cr w with
  | None => Panics panic_nil_dereference w
  | Some c =>
      Returns tt
              {| loggers := loggers w; cr := Some (method c);
                 detached := detached w; trace := trace w |}
  end.

(** [initLogFile] assigns [a.logger]: it answers the adapter as it is
    afterwards together with its [error] result. *)
Definition initLogFile (a : LogAdapter) : M (LogAdapter * option error) :=
  if negb (config.File (cfg a)) then mret (a, None)
  else
    let ld := config.Directory (cfg a) in
    h ← new_Logger {| lumberjack.Filename := ld +:+ "/go-base-template.log";
                      lumberjack.LocalTime := true;
                      lumberjack.MaxSize := config.MaxSize (cfg a);
                      lumberjack.MaxBackups := config.MaxBackup (cfg a);
                      lumberjack.MaxAge := config.MaxAge (cfg a);
                      lumberjack.Compress := config.Compress (cfg a) |};
    mret ({| cfg := cfg a; logger := Some h; appName := appName a;
             msName := msName a |}, None).

(** The result pair of [NewLogAdapter]: [(nil, err)] or [(a, nil)]. *)
Definition NewLogAdapter (cfg : config.LogConfig) (appCfg : config.AppConfig)
    : M (option LogAdapter * option error) :=
  let a := {| cfg := cfg; logger := None;
              appName := config.AppName appCfg;
              msName := config.MsName appCfg |} in
  '(a, err) ← initLogFile a;
  match err with
  | Some err => mret (None, Some err)
  | None =>
      cr_New;;
      on_cr (cron.AddFunc "@daily" (RotateJob a));;
      on_cr cron.Start;;
      mret (Some a, None)
  end.

(** The body of the registered job; [Rotate_err] is the error result of
    [a.logger.Rotate()]. *)
Definition run (j : Job) (Rotate_err : option error) : M unit :=
  match j with
  | RotateJob a =>
      err ← on_logger Logger_Rotate (logger a) Rotate_err;
      match err with
      | Some err =>
          emit (Println in_rotation_job (error_text err));;
          raise (panic_string "Error occurred in log rotation")
      | None => mret tt
      end
  end.

Fixpoint run_all (js : list Job) (Rotate_errs : list (option error))
  : M unit :=
  match js with
  | [] => mret tt
  | j :: js' => run j (hd None Rotate_errs);; run_all js' (tl Rotate_errs)
  end.

(** The schedule of a scheduler comes due: if it is running, the jobs of
    its entries run.  A job that panics takes the process down. *)
Definition fire (c : cron.Cron Job) (Rotate_errs : list (option error))
  : M unit :=
  if cron.running c then run_all (snd <$> cron.entries c) Rotate_errs
  else mret tt.

Definition Destruct (a : LogAdapter) : M unit :=
  if config.File (cfg a)
  then
    (* _ = a.logger.Close() *)
    on_logger Logger_Close (logger a) tt;;
    on_cr cron.Stop
  else mret tt.

(** ** Observing a run *)

(** The four exported log methods with the level each passes to [log]. *)
Definition log_methods
  : list (string * (LogAdapter -> string -> list iface -> Extern -> M unit)) :=
  [("ERROR", Error); ("DEBUG", Debug); ("INFO", Info); ("WARN", Warn)].

(** An adapter as [NewLogAdapter] leaves it: with the file sink enabled
    the handle is not nil. *)
Definition constructed (a : LogAdapter) : Prop :=
  config.File (cfg a) = true -> is_Some (logger a).

(** [w] after the calls [evs]. *)
Definition extend (w : World) (evs : list event) : World :=
  {| loggers := loggers w; cr := cr w; detached := detached w;
     trace := trace w ++ evs |}.

(** The console lines that are records: the ones [logToConsole] prints. *)
Definition console_records (tr : list event) : list string :=
  omap (fun ev => match ev with
                  | Println in_logToConsole text => Some text
                  | _ => None
                  end) tr.

(** The writes on file handles, each with its receiver. *)
Definition file_records (tr : list event) : list (option nat * string) :=
  omap (fun ev => match ev with
                  | Logger_Write recv p => Some (recv, p)
                  | _ => None
                  end) tr.

Definition hostname_diagnostic (e : Extern) : list event :=
  if (os_Hostname e).2 is Some _
  then [Println in_formatMessage "Error occurred at requesting host name"]
  else [].

Definition console_sink (a : LogAdapter) (m : string) : list event :=
  if config.Console (cfg a) then [Println in_logToConsole m] else [].

Definition file_sink (a : LogAdapter) (m : string) (e : Extern) : list event :=
  if config.File (cfg a)
  then Logger_Write (logger a) (m +:+ LF)
       :: (if Write_err e is Some err
           then [Println in_logToFile (error_text err)] else [])
  else [].

(** ** Record layout *)

(** [strings.Join] *)
Definition Join (elems : list string) (sep : string) : string :=
  String.concat sep elems.

(** [strings.Split] at a separator of one byte, with the field being read
    as accumulator. *)
Fixpoint Split_from (field s : string) (sep : ascii) : list string :=
  match s with
  | EmptyString => [field]
  | String c s' =>
      if decide (c = sep) then field :: Split_from "" s' sep
      else Split_from (field +:+ String c "") s' sep
  end.

Definition Split (s : string) (sep : ascii) : list string :=
  Split_from "" s sep.

(** [strings.IndexByte(s, c) >= 0] *)
Fixpoint occurs (c : ascii) (s : string) : bool :=
  match s with
  | EmptyString => false
  | String c' s' => bool_decide (c' = c) || occurs c s'
  end.

Definition pipe : ascii := "|".
Definition line_feed : ascii := Ascii.ascii_of_nat 10.

(** The nine fields of a record, in the order of the format string. *)
Definition fields (a : LogAdapter) (logLevel message : string) (goId : Z)
    (e : Extern) : list string :=
  [time_Now e; "[" +:+ Itoa goId +:+ "]"; (os_Hostname e).1; logLevel;
   "application-log"; appName a; msName a; uuid_NewV4 e; message].

(** The texts that the adapter copies into a record as they come. *)
Definition copied (a : LogAdapter) (logLevel message : string) (e : Extern)
  : list string :=
  [time_Now e; (os_Hostname e).1; logLevel; appName a; msName a;
   uuid_NewV4 e; message].

(** ** Sample inputs *)

Definition sample_app : config.AppConfig :=
  {| config.AppName := "clean-base-template";
     config.MsName := "clean-base-template-ms" |}.

Definition sample_config (Level : string) (Console File : bool)
  : config.LogConfig :=
  {| config.Level := Level; config.Console := Console; config.File := File;
     config.Directory := "/var/log/app"; config.MaxSize := 10;
     config.MaxBackup := 3; config.MaxAge := 28; config.Compress := false |}.

(** The adapter that [NewLogAdapter] makes of [sample_config] in [start]. *)
Definition sample_adapter (Level : string) (Console File : bool) : LogAdapter :=
  {| cfg := sample_config Level Console File;
     logger := if File then Some 0%nat else None;
     appName := "clean-base-template";
     msName := "clean-base-template-ms" |}.

Definition start : World :=
  {| loggers := []; cr := None; detached := []; trace := [] |}.

(** The values of the example line in the comment above [log]. *)
Definition sample_extern (Write_err : option error) : Extern :=
  {| time_Now := "2020-06-16 00:39:15.7164";
     uuid_NewV4 := "2ea75038-bc06-45c1-523a-0edd7978eab1";
     runtime_Stack := "goroutine 7 [running]:" +:+ LF +:+ "main.main()";
     os_Hostname := ("105393-001L", None);
     Write_err := Write_err |}.

Definition sample_record (message : string) : string :=
  "2020-06-16 00:39:15.7164|[7]|105393-001L|INFO|application-log|"
  +:+ "clean-base-template|clean-base-template-ms|"
  +:+ "2ea75038-bc06-45c1-523a-0edd7978eab1|" +:+ message.

Definition disk_full : error := errorString "no space left on device".

(** A call's surroundings with a given stack text and given answers of
    [os.Hostname] and [Write]; a failed hostname lookup answers no name. *)
Definition extern_with (stack : string) (Hostname_err Write_err : option error)
  : Extern :=
  {| time_Now := "2020-06-16 00:39:15.7164";
     uuid_NewV4 := "2ea75038-bc06-45c1-523a-0edd7978eab1";
     runtime_Stack := stack;
     os_Hostname := (if Hostname_err is Some _ then "" else "105393-001L",
                     Hostname_err);
     Write_err := Write_err |}.

Definition no_hostname : error := errorString "hostname: not available".

(** The world an outcome leaves behind, returned or not. *)
Definition world_of {A} (o : Outcome A) : World :=
  match o with
  | Returns _ w => w
  | Panics _ w => w
  end.

(** The world in which [NewLogAdapter] has made [sample_adapter]. *)
Definition sample_world (Level : string) (Console File : bool) : World :=
  world_of (NewLogAdapter (sample_config Level Console File) sample_app start).

(** The scheduler that [NewLogAdapter] starts for [sample_adapter]. *)
Definition sample_scheduler (Level : string) (Console File : bool)
  : cron.Cron Job :=
  {| cron.entries := [("@daily", RotateJob (sample_adapter Level Console File))];
     cron.running := true |}.

(** ** Observing several calls *)

(** Everything a run printed on standard output, whichever statement
    printed it. *)
Definition printed (tr : list event) : list string :=
  omap (fun ev => match ev with
                  | Println _ text => Some text
                  | _ => None
                  end) tr.

(** The calls made on file handles other than [Write]. *)
Definition handle_events (tr : list event) : list event :=
  omap (fun ev => match ev with
                  | Logger_Rotate _ | Logger_Close _ => Some ev
                  | _ => None
                  end) tr.

(** [strings.Count(s, string(c))] *)
Fixpoint count_byte (c : ascii) (s : string) : nat :=
  match s with
  | EmptyString => O
  | String c' s' => (if decide (c' = c) then 1 else 0) + count_byte c s'
  end.

(** One call of a log method by a user of the adapter, with what the call
    gets back from outside the package. *)
Record call := {
  call_level : string;
  call_method : LogAdapter -> string -> list iface -> Extern -> M unit;
  call_message : string;
  call_options : list iface;
  call_extern : Extern
}.

(** The calls of [cs] made one after the other on the adapter [a]. *)
Fixpoint log_all (a : LogAdapter) (cs : list call) : M unit :=
  match cs with
  | [] => mret tt
  | c :: cs' =>
      call_method c a (call_message c) (call_options c) (call_extern c);;
      log_all a cs'
  end.

(** The record [formatMessage] builds for a call, if it builds one. *)
Definition record_of (a : LogAdapter) (c : call) : option string :=
  match formatMessage a (call_level c) (call_message c) [] (call_extern c)
                      start with
  | Returns m _ => Some m
  | Panics _ _ => None
  end.

(** The records of the calls that pass the filter, in the order of the
    calls. *)
Definition records_of (a : LogAdapter) (cs : list call) : list string :=
  omap (fun c => if isLoggable a (call_level c) then record_of a c else None)
       cs.

Ltac run_M :=
  unfold mbind, M_bind, mret, M_ret, raise, emit, on_logger; simpl.

(** ** Severity filter: proofs *)

(** The map literal of the source is the ranking of the specification. *)
Lemma index_l_rank (name : string) : index l name = rank name.
Proof.
  unfold index, l, rank.
  repeat case_decide; subst; simplify_map_eq; reflexivity.
Qed.

Lemma isLoggable_rank (a : LogAdapter) (logLevel : string) :
  isLoggable a logLevel = (rank logLevel >=? rank (config.Level (cfg a))).
Proof. unfold isLoggable. by rewrite !index_l_rank. Qed.

Lemma rank_nonneg (name : string) : 0 <= rank name.
Proof. unfold rank. repeat case_decide; lia. Qed.

Lemma rank_unknown (name : string) : ~ known name -> rank name = 0.
Proof.
  unfold known, rank. intros Hn.
  repeat case_decide; try reflexivity; exfalso; apply Hn; auto.
Qed.

Lemma rank_known_pos (name : string) : known name -> 1 <= rank name.
Proof.
  intros [-> | [-> | [-> | ->]]]; vm_compute; discriminate.
Qed.

(** C1: with a configured minimum that is one of the four known names,
    [isLoggable] answers true exactly when the rank of the level is at
    least the rank of the minimum; the table of the source is ERROR=1,
    DEBUG=2, WARN=3, INFO=4 with 0 for every other name, so a level with an
    unknown name is suppressed. *)
Theorem isLoggable_known_minimum (a : LogAdapter) (logLevel : string) :
  known (config.Level (cfg a)) ->
  (isLoggable a logLevel = true
   <-> rank logLevel >= rank (config.Level (cfg a)))
  /\ index l logLevel = rank logLevel
  /\ (l !! "ERROR" = Some 1 /\ l !! "DEBUG" = Some 2
      /\ l !! "WARN" = Some 3 /\ l !! "INFO" = Some 4)
  /\ (~ known logLevel ->
      l !! logLevel = None /\ index l logLevel = 0
      /\ isLoggable a logLevel = false).
Proof.
  intros HM. split; [| split; [| split]].
  - rewrite isLoggable_rank, Z.geb_le. lia.
  - apply index_l_rank.
  - by vm_compute.
  - intros HL. split; [| split].
    + unfold known in HL. unfold l.
      rewrite !lookup_insert_ne, lookup_empty; [done | intros <-; tauto ..].
    + rewrite index_l_rank. by apply rank_unknown.
    + rewrite isLoggable_rank, (rank_unknown logLevel HL).
      apply rank_known_pos in HM. rewrite Z.geb_leb. apply Z.leb_gt. lia.
Qed.

Lemma isLoggable_known_minimum_witness :
  (isLoggable (sample_adapter "WARN" true false) "INFO" = true
   <-> rank "INFO" >= rank "WARN")
  /\ (~ known "TRACE" ->
      isLoggable (sample_adapter "WARN" true false) "TRACE" = false).
Proof.
  pose proof (isLoggable_known_minimum (sample_adapter "WARN" true false)) as H.
  split.
  - apply (H "INFO"). right; right; left; reflexivity.
  - intros Hn. apply (H "TRACE"); [right; right; left; reflexivity | exact Hn].
Defined.

(** C9: with a configured minimum that is none of the four known names,
    the minimum has rank 0 and [isLoggable] answers true for every level
    name, known or not. *)
Theorem isLoggable_unknown_minimum (a : LogAdapter) (logLevel : string) :
  ~ known (config.Level (cfg a)) ->
  index l (config.Level (cfg a)) = 0 /\ isLoggable a logLevel = true.
Proof.
  intros HM. split.
  - rewrite index_l_rank. by apply rank_unknown.
  - rewrite isLoggable_rank, (rank_unknown _ HM).
    apply Z.geb_le, rank_nonneg.
Qed.

Lemma not_known_verbose : ~ known "VERBOSE".
Proof. intros [H | [H | [H | H]]]; discriminate H. Qed.

Lemma isLoggable_unknown_minimum_witness :
  isLoggable (sample_adapter "VERBOSE" true false) "ERROR" = true
  /\ isLoggable (sample_adapter "VERBOSE" true false) "TRACE" = true.
Proof.
  split.
  - apply (isLoggable_unknown_minimum
             (sample_adapter "VERBOSE" true false) "ERROR").
    exact not_known_verbose.
  - apply (isLoggable_unknown_minimum
             (sample_adapter "VERBOSE" true false) "TRACE").
    exact not_known_verbose.
Defined.

(** ** Strings: proofs *)

Lemma append_nil (s : string) : "" +:+ s = s.
Proof. reflexivity. Qed.

Lemma append_cons (c : ascii) (s1 s2 : string) :
  String c s1 +:+ s2 = String c (s1 +:+ s2).
Proof. reflexivity. Qed.

Lemma append_nil_r (s : string) : s +:+ "" = s.
Proof. induction s as [| c s IH]; [done |]. by rewrite append_cons, IH. Qed.

Lemma string_app_assoc (s1 s2 s3 : string) :
  (s1 +:+ s2) +:+ s3 = s1 +:+ (s2 +:+ s3).
Proof.
  induction s1 as [| c s1 IH]; [done |].
  by rewrite !append_cons, IH.
Qed.

Lemma length_append (s1 s2 : string) :
  String.length (s1 +:+ s2) = (String.length s1 + String.length s2)%nat.
Proof.
  induction s1 as [| c s1 IH]; [done |].
  rewrite append_cons. simpl. by rewrite IH.
Qed.

Lemma occurs_append (c : ascii) (s1 s2 : string) :
  occurs c (s1 +:+ s2) = occurs c s1 || occurs c s2.
Proof.
  induction s1 as [| c1 s1 IH]; [done |].
  rewrite append_cons. simpl. by rewrite IH, orb_assoc.
Qed.

Lemma occurs_concat (c : ascii) (sep : string) (fs : list string) :
  occurs c sep = false ->
  Forall (fun f => occurs c f = false) fs ->
  occurs c (String.concat sep fs) = false.
Proof.
  intros Hsep. induction fs as [| f fs IH]; intros Hfs; [done |].
  apply Forall_cons in Hfs as [Hf Hfs].
  destruct fs as [| g fs]; [done |].
  change (String.concat sep (f :: g :: fs))
    with (f +:+ sep +:+ String.concat sep (g :: fs)).
  by rewrite !occurs_append, Hf, Hsep, (IH Hfs).
Qed.

Lemma substring_append (n : nat) (s1 s2 : string) :
  (String.length s1 <= n)%nat ->
  String.substring 0 n (s1 +:+ s2)
  = s1 +:+ String.substring 0 (n - String.length s1) s2.
Proof.
  revert n. induction s1 as [| c s1 IH]; intros n Hn.
  - rewrite !append_nil. simpl. by rewrite Nat.sub_0_r.
  - simpl in Hn. destruct n as [| n]; [lia |].
    rewrite !append_cons. simpl. rewrite IH by lia. reflexivity.
Qed.

Lemma TrimPrefix_append (prefix s : string) :
  TrimPrefix (prefix +:+ s) prefix = s.
Proof.
  unfold TrimPrefix.
  assert (String.prefix prefix (prefix +:+ s) = true) as ->.
  { induction prefix as [| c p IH]; [by destruct s |].
    rewrite append_cons. simpl. by destruct (ascii_dec c c). }
  induction prefix as [| c p IH]; [done |].
  rewrite append_cons. simpl. exact IH.
Qed.

Lemma Fields_from_word (word rest acc : string) :
  (forall c, occurs c word = true -> isSpace c = false) ->
  Fields_from acc (word +:+ rest) = Fields_from (acc +:+ word) rest.
Proof.
  revert acc. induction word as [| c word IH]; intros acc Hw.
  - by rewrite append_nil, append_nil_r.
  - rewrite append_cons. simpl.
    rewrite (Hw c) by (simpl; by rewrite bool_decide_eq_true_2).
    rewrite IH.
    + by rewrite string_app_assoc.
    + intros c' Hc'. apply Hw. simpl. rewrite Hc'. apply orb_true_r.
Qed.

Lemma Fields_first (word rest : string) :
  word <> "" ->
  (forall c, occurs c word = true -> isSpace c = false) ->
  Fields (word +:+ " " +:+ rest) = word :: Fields rest.
Proof.
  intros Hne Hw. unfold Fields. rewrite (Fields_from_word _ _ _ Hw).
  rewrite append_nil, append_cons, append_nil. simpl.
  by rewrite decide_False.
Qed.

Lemma Split_from_free (sep : ascii) (f rest acc : string) :
  occurs sep f = false ->
  Split_from acc (f +:+ rest) sep = Split_from (acc +:+ f) rest sep.
Proof.
  revert acc. induction f as [| c f IH]; intros acc Hf.
  - by rewrite append_nil, append_nil_r.
  - simpl in Hf. apply orb_false_iff in Hf as [Hc Hf].
    apply bool_decide_eq_false in Hc.
    rewrite append_cons. simpl. rewrite decide_False by done.
    rewrite (IH _ Hf). f_equal. by rewrite string_app_assoc.
Qed.

Lemma Split_from_sep (sep : ascii) (rest acc : string) :
  Split_from acc (String sep rest) sep = acc :: Split_from "" rest sep.
Proof. simpl. by rewrite decide_True. Qed.

Lemma Split_from_concat (sep : ascii) (fs : list string) (f acc : string) :
  occurs sep f = false ->
  Forall (fun f => occurs sep f = false) fs ->
  Split_from acc (String.concat (String sep "") (f :: fs)) sep
  = (acc +:+ f) :: fs.
Proof.
  revert f acc. induction fs as [| g fs IH]; intros f acc Hf Hfs.
  - simpl. rewrite <- (append_nil_r f) at 1.
    by rewrite (Split_from_free _ _ _ _ Hf).
  - apply Forall_cons in Hfs as [Hg Hfs].
    change (String.concat (String sep "") (f :: g :: fs))
      with (f +:+ String sep "" +:+ String.concat (String sep "") (g :: fs)).
    rewrite (Split_from_free _ _ _ _ Hf).
    rewrite append_cons, append_nil, Split_from_sep.
    by rewrite (IH g "" Hg Hfs).
Qed.

(** Splitting what was joined gives the fields back when no field holds
    the separator. *)
Lemma Split_Join (sep : ascii) (f : string) (fs : list string) :
  Forall (fun f => occurs sep f = false) (f :: fs) ->
  Split (Join (f :: fs) (String sep "")) sep = f :: fs.
Proof.
  intros H. apply Forall_cons in H as [Hf Hfs].
  unfold Split, Join. by rewrite (Split_from_concat _ _ _ _ Hf Hfs).
Qed.

(** ** Decimal numerals: proofs *)

Lemma occurs_string_of_uint (c : ascii) (d : Decimal.uint) :
  occurs c (NilEmpty.string_of_uint d) = true -> occurs c "0123456789" = true.
Proof.
  induction d as [| d IH | d IH | d IH | d IH | d IH | d IH | d IH | d IH
                  | d IH | d IH]; simpl; intros H; [done | ..];
    apply orb_true_iff in H as [H | H];
    try (apply bool_decide_eq_true in H; subst c; reflexivity);
    by apply IH.
Qed.

(** [Itoa] prints digits and at most a sign. *)
Lemma occurs_Itoa (c : ascii) (n : Z) :
  occurs c (Itoa n) = true -> occurs c "-0123456789" = true.
Proof.
  unfold Itoa, NilZero.string_of_int, NilZero.string_of_uint.
  assert (forall d, occurs c (match d with
                              | Decimal.Nil => "0"
                              | _ => NilEmpty.string_of_uint d
                              end) = true -> occurs c "0123456789" = true)
    as Hu.
  { intros d. destruct d; try apply occurs_string_of_uint.
    simpl. rewrite orb_false_r. intros H.
    apply bool_decide_eq_true in H. by subst c. }
  destruct (Z.to_int n) as [d | d].
  - intros H. apply Hu in H.
    change "-0123456789" with ("-" +:+ "0123456789").
    rewrite occurs_append, H. apply orb_true_r.
  - change (String "-" ?s) with ("-" +:+ s).
    change "-0123456789" with ("-" +:+ "0123456789").
    rewrite !occurs_append. intros H.
    apply orb_true_iff in H as [H | H]; [by rewrite H |].
    apply Hu in H. rewrite H. apply orb_true_r.
Qed.

Lemma goId_field_free (c : ascii) (n : Z) :
  occurs c "[]-0123456789" = false ->
  occurs c ("[" +:+ Itoa n +:+ "]") = false.
Proof.
  intros Hc. rewrite !occurs_append.
  destruct (occurs c (Itoa n)) eqn:Hn.
  - apply occurs_Itoa in Hn. revert Hc Hn. simpl.
    repeat case_bool_decide; simpl; congruence.
  - revert Hc. simpl. repeat case_bool_decide; simpl; congruence.
Qed.

Lemma Itoa_no_space (n : Z) (c : ascii) :
  occurs c (Itoa n) = true -> isSpace c = false.
Proof.
  intros H. apply occurs_Itoa in H. simpl in H.
  repeat case_bool_decide; subst; try reflexivity. discriminate H.
Qed.

Lemma length_string_of_uint (d : Decimal.uint) :
  String.length (NilEmpty.string_of_uint d) = Decimal.nb_digits d.
Proof. induction d; simpl; congruence. Qed.

Lemma to_lu_add (q : positive) (k : nat) :
  DecimalPos.Unsigned.to_lu (10 * N.pos q + N.of_nat k)
  = Nat.iter k Decimal.Little.succ
             (Decimal.D0 (DecimalPos.Unsigned.to_lu (N.pos q))).
Proof.
  induction k as [| k IH].
  - rewrite N.add_0_r. apply DecimalPos.Unsigned.to_ldec_tenfold.
  - rewrite Nat2N.inj_succ, N.add_succ_r, DecimalPos.Unsigned.to_lu_succ, IH.
    reflexivity.
Qed.

Lemma to_lu_digit (q r : N) :
  (0 < q)%N -> (r < 10)%N ->
  Decimal.nb_digits (DecimalPos.Unsigned.to_lu (10 * q + r))
  = S (Decimal.nb_digits (DecimalPos.Unsigned.to_lu q)).
Proof.
  intros Hq Hr. destruct q as [| p]; [lia |].
  rewrite <- (N2Nat.id r), to_lu_add.
  assert (N.to_nat r < 10)%nat as Hk by lia.
  revert Hk. generalize (N.to_nat r). intros k Hk.
  do 10 (destruct k as [| k]; [reflexivity |]). lia.
Qed.

Lemma to_lu_small (n : N) :
  (n < 10)%N -> Decimal.nb_digits (DecimalPos.Unsigned.to_lu n) = 1%nat.
Proof.
  intros Hn. rewrite <- (N2Nat.id n).
  assert (N.to_nat n < 10)%nat as Hk by lia.
  revert Hk. generalize (N.to_nat n). intros k Hk.
  do 10 (destruct k as [| k]; [reflexivity |]). lia.
Qed.

Lemma nb_digits_to_lu (k : nat) (n : N) :
  (n < 10 ^ N.of_nat (S k))%N ->
  (Decimal.nb_digits (DecimalPos.Unsigned.to_lu n) <= S k)%nat.
Proof.
  revert n. induction k as [| k IH]; intros n Hn.
  - rewrite to_lu_small; [lia | exact Hn].
  - destruct (N.lt_ge_cases n 10) as [Hsmall | Hbig].
    + rewrite to_lu_small; [lia | exact Hsmall].
    + rewrite (N.div_mod n 10) by lia.
      rewrite to_lu_digit.
      * apply le_n_S, IH.
        replace (N.of_nat (S (S k))) with (N.succ (N.of_nat (S k))) in Hn
          by lia.
        rewrite N.pow_succ_r' in Hn.
        apply N.Div0.div_lt_upper_bound. lia.
      * apply N.div_str_pos. lia.
      * apply N.mod_lt. lia.
Qed.

(** A non-negative [int] prints in at most 19 digits, so the header fits
    the 64 bytes of [buf]. *)
Lemma length_Itoa (n : Z) :
  0 <= n < 2 ^ 63 -> (String.length (Itoa n) <= 19)%nat.
Proof.
  intros Hn. unfold Itoa. destruct n as [| p | p]; [simpl; lia | | lia].
  unfold Z.to_int, NilZero.string_of_int, NilZero.string_of_uint.
  pose proof (DecimalPos.Unsigned.to_uint_nonnil p) as Hnil.
  destruct (Pos.to_uint p) eqn:Hd; [done | ..]; rewrite <- Hd;
    rewrite length_string_of_uint; unfold Pos.to_uint;
    rewrite DecimalFacts.nb_digits_rev;
    apply (nb_digits_to_lu 18 (N.pos p)); lia.
Qed.

Lemma digits_string_of_uint (d : Decimal.uint) :
  d <> Decimal.Nil ->
  digits (NilEmpty.string_of_uint d) = Some (Z.of_uint d).
Proof.
  intros Hd. unfold digits. rewrite NilEmpty.usu.
  rewrite decide_False; [done |]. by destruct d.
Qed.

(** [Atoi] reads back what [Itoa] prints. *)
Lemma Atoi_Itoa (n : Z) : - 2 ^ 63 <= n < 2 ^ 63 -> Atoi (Itoa n) = Some n.
Proof.
  intros Hn.
  assert (forall p, Z.of_uint (Pos.to_uint p) = Z.pos p) as Hof.
  { intros p. unfold Z.of_uint. by rewrite DecimalPos.Unsigned.of_to. }
  assert (forall p, NilZero.string_of_uint (Pos.to_uint p)
                    = NilEmpty.string_of_uint (Pos.to_uint p)) as Hnz.
  { intros p. unfold NilZero.string_of_uint.
    pose proof (DecimalPos.Unsigned.to_uint_nonnil p).
    by destruct (Pos.to_uint p). }
  assert (forall m : Z, - 2 ^ 63 <= m < 2 ^ 63 ->
            (if (- 2 ^ 63 <=? m) && (m <? 2 ^ 63) then Some m else None)
            = Some m) as Hrange.
  { intros m Hm.
    destruct (Z.leb_spec (- 2 ^ 63) m), (Z.ltb_spec m (2 ^ 63)); simpl;
      first [reflexivity | lia]. }
  unfold Itoa. destruct n as [| p | p].
  - reflexivity.
  - unfold Z.to_int, NilZero.string_of_int. rewrite Hnz.
    unfold Atoi.
    assert (forall c, occurs c (NilEmpty.string_of_uint (Pos.to_uint p)) = true
                      -> c <> "+"%char /\ c <> "-"%char) as Hc.
    { intros c H. apply occurs_string_of_uint in H.
      split; intros ->; vm_compute in H; discriminate H. }
    pose proof (digits_string_of_uint
                  _ (DecimalPos.Unsigned.to_uint_nonnil p)) as Hd.
    destruct (NilEmpty.string_of_uint (Pos.to_uint p)) as [| c s] eqn:Hs.
    + discriminate Hd.
    + destruct (Hc c) as [H1 H2]; [simpl; by rewrite bool_decide_eq_true_2 |].
      rewrite !decide_False by done. rewrite Hd, Hof.
      unfold mbind, option_bind. by rewrite Hrange.
  - unfold Z.to_int, NilZero.string_of_int. rewrite Hnz.
    unfold Atoi. rewrite decide_False by done. rewrite decide_True by done.
    rewrite (digits_string_of_uint
               _ (DecimalPos.Unsigned.to_uint_nonnil p)), Hof.
    unfold fmap, option_fmap, option_map, mbind, option_bind.
    by rewrite (Hrange (- Z.pos p)).
Qed.

(** ** Goroutine identifier: proofs *)

Lemma goid_cases (e : Extern) :
  (exists goId, goid e = mret goId) \/ (exists p, goid e = raise p).
Proof.
  unfold goid.
  destruct (Fields _) as [| idField ?]; [right; eauto |].
  destruct (Atoi idField); [left | right]; eauto.
Qed.

(** X1: the stack text that the Go runtime prints starts with the header
    "goroutine N [state]:"; [goid] reads N back from it, for every N from 0
    that fits an [int], whatever follows the header. *)
Lemma goid_runtime_header (e : Extern) (id : Z) (rest : string) :
  0 <= id < 2 ^ 63 ->
  runtime_Stack e = "goroutine " +:+ Itoa id +:+ " [" +:+ rest ->
  goid e = mret id.
Proof.
  intros Hid Hstack. unfold goid. rewrite Hstack.
  pose proof (length_Itoa id Hid) as Hlen.
  assert (Atoi (Itoa id) = Some id) as Hatoi by (apply Atoi_Itoa; lia).
  change (" [" +:+ rest) with (" " +:+ "[" +:+ rest).
  rewrite <- (string_app_assoc (Itoa id) " "), <- string_app_assoc.
  rewrite substring_append
    by (rewrite !length_append; simpl; lia).
  rewrite !string_app_assoc, TrimPrefix_append.
  rewrite Fields_first.
  - by rewrite Hatoi.
  - intros Hempty. by rewrite Hempty in Hatoi.
  - apply Itoa_no_space.
Qed.

(** ** The log methods: proofs *)

Lemma extend_nil (w : World) : extend w [] = w.
Proof. destruct w. unfold extend. simpl. by rewrite app_nil_r. Qed.

Lemma extend_extend (w : World) (evs1 evs2 : list event) :
  extend (extend w evs1) evs2 = extend w (evs1 ++ evs2).
Proof. unfold extend. simpl. by rewrite app_assoc. Qed.

Lemma formatMessage_Returns a logLevel message options e goId w :
  goid e = mret goId ->
  formatMessage a logLevel message options e w
  = Returns (Join (fields a logLevel message goId e) "|")
            (extend w (hostname_diagnostic e)).
Proof.
  intros Hg. unfold formatMessage, hostname_diagnostic, Join, fields.
  rewrite Hg. destruct (os_Hostname e) as [hostname [err |]]; run_M.
  - f_equal. by rewrite !string_app_assoc.
  - rewrite extend_nil. f_equal. by rewrite !string_app_assoc.
Qed.

Lemma formatMessage_Panics a logLevel message options e p w :
  goid e = raise p ->
  formatMessage a logLevel message options e w = Panics p w.
Proof. intros Hg. unfold formatMessage. by rewrite Hg. Qed.

(** [formatMessage] returns only with a readable goroutine identifier, and
    then the record is the nine fields joined by "|". *)
Lemma formatMessage_inv a logLevel message options e w m w1 :
  formatMessage a logLevel message options e w = Returns m w1 ->
  exists goId, goid e = mret goId
               /\ m = Join (fields a logLevel message goId e) "|"
               /\ w1 = extend w (hostname_diagnostic e).
Proof.
  intros H. destruct (goid_cases e) as [[goId Hg] | [p Hg]].
  - rewrite (formatMessage_Returns _ _ _ _ _ _ _ Hg) in H.
    exists goId. by inversion H.
  - by rewrite (formatMessage_Panics _ _ _ _ _ _ _ Hg) in H.
Qed.

Lemma logToConsole_Returns a m w :
  logToConsole a m w = Returns tt (extend w (console_sink a m)).
Proof.
  unfold logToConsole, console_sink.
  destruct (config.Console (cfg a)); run_M; [done | by rewrite extend_nil].
Qed.

Lemma logToFile_Returns a m e w :
  constructed a ->
  logToFile a m e w = Returns tt (extend w (file_sink a m e)).
Proof.
  unfold constructed, logToFile, file_sink. intros Hc.
  destruct (config.File (cfg a)); run_M; [| by rewrite extend_nil].
  destruct Hc as [h ->]; [done |].
  destruct (Write_err e) as [err |]; run_M; [| done].
  unfold extend. simpl. by rewrite <- app_assoc.
Qed.

Lemma log_not_loggable a logLevel message options e w :
  isLoggable a logLevel = false ->
  log a logLevel message options e w = Returns tt w.
Proof. intros H. unfold log. by rewrite H. Qed.

(** One call of [log] at a level that passes the filter: the events it
    adds to the world, in order. *)
Lemma log_loggable a logLevel message options e w goId :
  isLoggable a logLevel = true ->
  goid e = mret goId ->
  constructed a ->
  let m := Join (fields a logLevel message goId e) "|" in
  log a logLevel message options e w
  = Returns tt (extend w (hostname_diagnostic e ++ console_sink a m
                          ++ file_sink a m e)).
Proof.
  intros HL Hg Hc m. unfold log. rewrite HL. simpl.
  unfold mbind at 1, M_bind at 1.
  rewrite (formatMessage_Returns _ _ _ _ _ _ _ Hg).
  unfold mbind, M_bind. rewrite logToConsole_Returns.
  rewrite (logToFile_Returns _ _ _ _ Hc).
  by rewrite !extend_extend.
Qed.

Lemma log_methods_log L f :
  In (L, f) log_methods ->
  known L /\ forall a message options e,
      f a message options e = log a L message [] e.
Proof.
  unfold known. simpl.
  intros [H | [H | [H | [H | []]]]]; inversion H; subst;
    (split; [tauto |]); intros; reflexivity.
Qed.

(** C8: the variadic [options] of [Error], [Debug], [Info] and [Warn] have
    no effect: [formatMessage] builds the same record and each method has
    the same outcome, whatever extra arguments are passed. *)
Theorem options_have_no_effect (a : LogAdapter) (logLevel message : string)
    (options1 options2 : list iface) (e : Extern) (w : World) :
  formatMessage a logLevel message options1 e w
  = formatMessage a logLevel message options2 e w
  /\ log a logLevel message options1 e w = log a logLevel message options2 e w
  /\ Error a message options1 e w = Error a message options2 e w
  /\ Debug a message options1 e w = Debug a message options2 e w
  /\ Info a message options1 e w = Info a message options2 e w
  /\ Warn a message options1 e w = Warn a message options2 e w.
Proof. repeat split. Qed.

(** C2: a call of the log method of a known level whose rank is at least
    the rank of the configured minimum emits exactly one record on each
    enabled sink, the record [formatMessage] builds, and none on a disabled
    one; a call below the threshold emits nothing at all.  The adapter is
    one that [NewLogAdapter] made and the goroutine identifier is readable
    from the stack text. *)
Theorem log_method_emission (a : LogAdapter) (L : string)
    (f : LogAdapter -> string -> list iface -> Extern -> M unit)
    (message : string) (options : list iface) (e : Extern) (w : World)
    (goId : Z) :
  In (L, f) log_methods ->
  constructed a ->
  goid e = mret goId ->
  known L
  /\ (rank L >= rank (config.Level (cfg a)) ->
      exists m w1 w2 new,
        formatMessage a L message options e w = Returns m w1
        /\ f a message options e w = Returns tt w2
        /\ w2 = extend w new
        /\ console_records new = (if config.Console (cfg a) then [m] else [])
        /\ file_records new
           = (if config.File (cfg a) then [(logger a, m +:+ LF)] else []))
  /\ (rank L < rank (config.Level (cfg a)) ->
      f a message options e w = Returns tt w).
Proof.
  intros Hin Hc Hg. destruct (log_methods_log L f Hin) as [HL Hf].
  split; [exact HL |]. rewrite Hf. split.
  - intros Hr.
    assert (isLoggable a L = true) as Hlog
      by (rewrite isLoggable_rank; apply Z.geb_le; lia).
    eexists _, _, _, _.
    split; [apply (formatMessage_Returns _ _ _ _ _ _ _ Hg) |].
    split; [apply (log_loggable _ _ _ _ _ _ _ Hlog Hg Hc) |].
    split; [reflexivity |].
    unfold console_records, file_records. rewrite !omap_app.
    unfold hostname_diagnostic, console_sink, file_sink.
    destruct (os_Hostname e).2, (config.Console (cfg a)),
      (config.File (cfg a)), (Write_err e); split; reflexivity.
  - intros Hr. apply log_not_loggable.
    rewrite isLoggable_rank, Z.geb_leb. apply Z.leb_gt. lia.
Qed.

Lemma log_method_emission_witness :
  (In ("INFO", Info) log_methods
   /\ constructed (sample_adapter "WARN" true true)
   /\ goid (sample_extern None) = mret 7
   /\ exists new,
       Info (sample_adapter "WARN" true true) "hello" [] (sample_extern None)
            start
       = Returns tt (extend start new)
       /\ console_records new = [sample_record "hello"]
       /\ file_records new = [(Some 0%nat, sample_record "hello" +:+ LF)])
  /\ Error (sample_adapter "WARN" true true) "hello" [] (sample_extern None)
           start
     = Returns tt start.
Proof.
  assert (In ("INFO", Info) log_methods) as Hi by (simpl; tauto).
  assert (In ("ERROR", Error) log_methods) as He by (simpl; tauto).
  assert (constructed (sample_adapter "WARN" true true)) as Hc
    by (intros _; simpl; eauto).
  assert (goid (sample_extern None) = mret 7) as Hg by reflexivity.
  split.
  - split; [exact Hi |]. split; [exact Hc |]. split; [exact Hg |].
    destruct (log_method_emission (sample_adapter "WARN" true true) "INFO"
                Info "hello" [] (sample_extern None) start 7 Hi Hc Hg)
      as (_ & H & _).
    destruct H as (m & w1 & w2 & new & Hm & Hf & -> & Hcon & Hfile);
      [vm_compute; discriminate |].
    exists new. split; [exact Hf |].
    rewrite Hcon, Hfile. simpl.
    assert (m = sample_record "hello") as ->; [| done].
    vm_compute in Hm. by inversion Hm.
  - apply (log_method_emission (sample_adapter "WARN" true true) "ERROR"
             Error "hello" [] (sample_extern None) start 7 He Hc Hg).
    reflexivity.
Defined.

(** C6: when the file sink is enabled and the write of a formatted record
    on the file handle answers an error, the log method prints the error
    on the console and returns; the events of the call are the record on
    the console (if enabled), the write and the printed error, and the
    outcome is a return whatever the write answers. *)
Theorem write_failure_not_propagated (a : LogAdapter) (L : string)
    (f : LogAdapter -> string -> list iface -> Extern -> M unit)
    (message : string) (options : list iface) (e : Extern) (w w1 : World)
    (m : string) (h : nat) (err : error) :
  In (L, f) log_methods ->
  isLoggable a L = true ->
  formatMessage a L message options e w = Returns m w1 ->
  config.File (cfg a) = true ->
  logger a = Some h ->
  Write_err e = Some err ->
  logToFile a m e w1
  = Returns tt (extend w1 [Logger_Write (Some h) (m +:+ LF);
                           Println in_logToFile (error_text err)])
  /\ f a message options e w
     = Returns tt (extend w1 (console_sink a m
                              ++ [Logger_Write (Some h) (m +:+ LF);
                                  Println in_logToFile (error_text err)]))
  /\ forall Write_err',
       exists w2,
         f a message options
           {| time_Now := time_Now e; uuid_NewV4 := uuid_NewV4 e;
              runtime_Stack := runtime_Stack e; os_Hostname := os_Hostname e;
              Write_err := Write_err' |} w
         = Returns tt w2.
Proof.
  intros Hin Hlog Hfmt HF Hh Herr.
  destruct (log_methods_log L f Hin) as [_ Hf]. rewrite !Hf.
  assert (constructed a) as Hc by (intros _; rewrite Hh; eauto).
  apply formatMessage_inv in Hfmt as (goId & Hg & -> & ->).
  split; [| split].
  - rewrite (logToFile_Returns _ _ _ _ Hc). unfold file_sink.
    by rewrite HF, Hh, Herr.
  - rewrite (log_loggable _ _ _ _ _ _ _ Hlog Hg Hc).
    rewrite extend_extend. unfold file_sink. by rewrite HF, Hh, Herr.
  - intros Write_err'. rewrite Hf. eexists.
    apply (log_loggable _ _ _ _ _ _ goId Hlog); [| exact Hc].
    exact Hg.
Qed.

Lemma write_failure_not_propagated_witness :
  Info (sample_adapter "INFO" true true) "x" [] (sample_extern (Some disk_full))
       start
  = Returns tt (extend start
                  [Println in_logToConsole (sample_record "x");
                   Logger_Write (Some 0%nat) (sample_record "x" +:+ LF);
                   Println in_logToFile "no space left on device"]).
Proof.
  destruct (write_failure_not_propagated
              (sample_adapter "INFO" true true) "INFO" Info "x" []
              (sample_extern (Some disk_full)) start start
              (sample_record "x") 0 disk_full) as (_ & H & _);
    [simpl; tauto | reflexivity | reflexivity | reflexivity | reflexivity
     | reflexivity |].
  exact H.
Defined.

(** ** Record layout: proofs *)

(** C3 (as amended): for every level and every message, empty or not, the
    record that [formatMessage] builds is the nine texts timestamp,
    [contextId] in brackets, hostname, level, "application-log", appName,
    msName, requestId and message, joined by "|" in this order.  Split at
    "|" it has exactly these nine fields whenever none of the texts the
    adapter copies into it (timestamp, hostname, level, appName, msName,
    requestId, message) contains a "|", and it is a single line whenever
    none of them contains a line feed. *)
Theorem formatMessage_record_layout (a : LogAdapter) (logLevel message : string)
    (options : list iface) (e : Extern) (w w1 : World) (m : string) :
  formatMessage a logLevel message options e w = Returns m w1 ->
  exists goId,
    goid e = mret goId
    /\ m = Join [time_Now e; "[" +:+ Itoa goId +:+ "]"; (os_Hostname e).1;
                 logLevel; "application-log"; appName a; msName a;
                 uuid_NewV4 e; message] "|"
    /\ (Forall (fun t => occurs pipe t = false) (copied a logLevel message e) ->
        Split m pipe
        = [time_Now e; "[" +:+ Itoa goId +:+ "]"; (os_Hostname e).1;
           logLevel; "application-log"; appName a; msName a;
           uuid_NewV4 e; message])
    /\ (Forall (fun t => occurs line_feed t = false)
               (copied a logLevel message e) ->
        occurs line_feed m = false).
Proof.
  intros H. apply formatMessage_inv in H as (goId & Hg & -> & _).
  exists goId. split; [exact Hg |]. split; [reflexivity |].
  unfold copied, fields. split; intros Hfree;
    repeat (apply Forall_cons in Hfree as [? Hfree]).
  - apply (Split_Join pipe).
    repeat (apply Forall_cons; split); try done.
    by apply goId_field_free.
  - apply occurs_concat; [done |].
    repeat (apply Forall_cons; split); try done.
    by apply goId_field_free.
Qed.

Lemma formatMessage_record_layout_witness :
  formatMessage (sample_adapter "DEBUG" true false) "INFO"
                "Controller started..." [] (sample_extern None) start
  = Returns (sample_record "Controller started...") start
  /\ Split (sample_record "Controller started...") pipe
     = ["2020-06-16 00:39:15.7164"; "[7]"; "105393-001L"; "INFO";
        "application-log"; "clean-base-template"; "clean-base-template-ms";
        "2ea75038-bc06-45c1-523a-0edd7978eab1"; "Controller started..."]
  /\ occurs line_feed (sample_record "Controller started...") = false.
Proof.
  assert (formatMessage (sample_adapter "DEBUG" true false) "INFO"
                        "Controller started..." [] (sample_extern None) start
          = Returns (sample_record "Controller started...") start) as Hm
    by reflexivity.
  split; [exact Hm |].
  destruct (formatMessage_record_layout _ _ _ _ _ _ _ _ Hm)
    as (goId & Hg & _ & Hsplit & Hline).
  assert (goId = 7) as ->.
  { vm_compute in Hg.
    assert (Returns goId start = Returns 7 start) as Heq
      by (exact (f_equal (fun m0 : M Z => m0 start) (eq_sym Hg))).
    by inversion Heq. }
  split.
  - rewrite Hsplit; [reflexivity |]. unfold copied. simpl.
    repeat constructor.
  - apply Hline. unfold copied. simpl. repeat constructor.
Defined.

(** C3, as stated, fails: a message with a "|" in it is non-empty and its
    record has ten fields when split at "|". *)
Lemma formatMessage_pipe_in_message :
  "disk|full" <> ""
  /\ formatMessage (sample_adapter "DEBUG" true false) "INFO" "disk|full" []
                   (sample_extern None) start
     = Returns (sample_record "disk|full") start
  /\ Split (sample_record "disk|full") pipe
     = ["2020-06-16 00:39:15.7164"; "[7]"; "105393-001L"; "INFO";
        "application-log"; "clean-base-template"; "clean-base-template-ms";
        "2ea75038-bc06-45c1-523a-0edd7978eab1"; "disk"; "full"]
  /\ length (Split (sample_record "disk|full") pipe) <> 9%nat.
Proof. repeat split; try reflexivity; vm_compute; discriminate. Qed.

(** ** Life cycle: proofs *)

Lemma initLogFile_Returns (a : LogAdapter) (w : World) :
  exists a' w', initLogFile a w = Returns (a', None) w'
    /\ cfg a' = cfg a /\ appName a' = appName a /\ msName a' = msName a
    /\ logger a' = (if config.File (cfg a) then Some (length (loggers w))
                    else logger a)
    /\ cr w' = cr w /\ detached w' = detached w /\ trace w' = trace w
    /\ loggers w'
       = loggers w
         ++ (if config.File (cfg a)
             then [{| lumberjack.Filename :=
                        config.Directory (cfg a) +:+ "/go-base-template.log";
                      lumberjack.LocalTime := true;
                      lumberjack.MaxSize := config.MaxSize (cfg a);
                      lumberjack.MaxBackups := config.MaxBackup (cfg a);
                      lumberjack.MaxAge := config.MaxAge (cfg a);
                      lumberjack.Compress := config.Compress (cfg a) |}]
             else []).
Proof.
  unfold initLogFile. destruct (config.File (cfg a)); simpl.
  - eexists _, _. split; [reflexivity |]. simpl. tauto.
  - exists a, w. rewrite app_nil_r. tauto.
Qed.

Lemma NewLogAdapter_Returns (c : config.LogConfig) (appCfg : config.AppConfig)
    (w : World) :
  exists a w', NewLogAdapter c appCfg w = Returns (Some a, None) w'
    /\ cfg a = c
    /\ appName a = config.AppName appCfg /\ msName a = config.MsName appCfg
    /\ logger a = (if config.File c then Some (length (loggers w)) else None)
    /\ cr w' = Some {| cron.entries := [("@daily", RotateJob a)];
                       cron.running := true |}
    /\ detached w' = detached w ++ option_list (cr w)
    /\ trace w' = trace w
    /\ length (loggers w') = (length (loggers w)
                              + (if config.File c then 1 else 0))%nat.
Proof.
  unfold NewLogAdapter.
  destruct (initLogFile_Returns
              {| cfg := c; logger := None; appName := config.AppName appCfg;
                 msName := config.MsName appCfg |} w)
    as (a & w1 & Hinit & Hcfg & Happ & Hms & Hlg & Hcr & Hdet & Htr & Hls).
  simpl in *. unfold mbind at 1, M_bind at 1. rewrite Hinit. simpl.
  eexists _, _. split; [reflexivity |]. simpl.
  rewrite Hcfg, Happ, Hms, Hlg, Hcr, Hdet, Htr, Hls, length_app.
  destruct (config.File c); simpl; tauto.
Qed.

Lemma run_failure (a : LogAdapter) (h : nat) (err : error) (w : World) :
  logger a = Some h ->
  run (RotateJob a) (Some err) w
  = Panics (panic_string "Error occurred in log rotation")
           (extend w [Logger_Rotate (Some h);
                      Println in_rotation_job (error_text err)]).
Proof.
  intros Hh. unfold run. rewrite Hh. run_M.
  unfold extend. simpl. by rewrite <- app_assoc.
Qed.

(** On a nil handle the job faults in [Rotate], whatever it would answer. *)
Lemma run_nil (a : LogAdapter) (Rotate_err : option error) (w : World) :
  logger a = None ->
  run (RotateJob a) Rotate_err w
  = Panics panic_nil_dereference (extend w [Logger_Rotate None]).
Proof. intros Hh. unfold run. rewrite Hh. by run_M. Qed.

(** C4 (as amended): [initLogFile] only fills in the [lumberjack.Logger]
    struct, opens no file and never answers an error, so [NewLogAdapter]
    always returns an adapter and a nil error, whatever the directory is:
    the adapter carries the configuration and the names, its handle is set
    exactly when the file sink is enabled, and the rotation job is
    registered on a started scheduler. *)
Theorem NewLogAdapter_always_succeeds (c : config.LogConfig)
    (appCfg : config.AppConfig) (w : World) :
  (exists a0 w0,
      initLogFile {| cfg := c; logger := None;
                     appName := config.AppName appCfg;
                     msName := config.MsName appCfg |} w
      = Returns (a0, None) w0)
  /\ exists a w',
      NewLogAdapter c appCfg w = Returns (Some a, None) w'
      /\ cfg a = c
      /\ appName a = config.AppName appCfg
      /\ msName a = config.MsName appCfg
      /\ constructed a
      /\ (is_Some (logger a) <-> config.File c = true)
      /\ cr w' = Some {| cron.entries := [("@daily", RotateJob a)];
                         cron.running := true |}.
Proof.
  split.
  - destruct (initLogFile_Returns
                {| cfg := c; logger := None; appName := config.AppName appCfg;
                   msName := config.MsName appCfg |} w) as (a0 & w0 & H & _).
    eauto.
  - destruct (NewLogAdapter_Returns c appCfg w)
      as (a & w' & H & Hcfg & Happ & Hms & Hlg & Hcr & _).
    exists a, w'. unfold constructed. rewrite Hcfg, Hlg.
    repeat split; try assumption.
    + intros ->. eauto.
    + destruct (config.File c); [done | by intros [? ?]].
    + intros ->. eauto.
Qed.

(** C4, as stated, fails: with the file sink enabled and a directory that
    does not exist, [NewLogAdapter] still answers an adapter and a nil
    error; the directory is only copied into [Filename]. *)
Lemma NewLogAdapter_unusable_directory :
  let c := {| config.Level := "INFO"; config.Console := false;
              config.File := true; config.Directory := "/no/such/directory";
              config.MaxSize := 10; config.MaxBackup := 3;
              config.MaxAge := 28; config.Compress := false |} in
  (exists a w',
      NewLogAdapter c sample_app start = Returns (Some a, None) w'
      /\ logger a = Some 0%nat
      /\ lumberjack.Filename <$> loggers w'
         = ["/no/such/directory/go-base-template.log"])
  /\ ~ exists err w',
        NewLogAdapter c sample_app start = Returns (None, Some err) w'.
Proof.
  split.
  - eexists _, _. repeat split.
  - intros (err & w' & H). vm_compute in H. discriminate H.
Qed.

(** C5: when the rotation job runs and [Rotate] on the file handle answers
    an error, the error is printed on the console and the job panics with
    "Error occurred in log rotation"; so does the firing of a running
    scheduler whose entry is that job.  Nothing recovers the panic. *)
Theorem rotation_failure_is_fatal (a : LogAdapter) (h : nat) (err : error)
    (w : World) :
  logger a = Some h ->
  run (RotateJob a) (Some err) w
  = Panics (panic_string "Error occurred in log rotation")
           (extend w [Logger_Rotate (Some h);
                      Println in_rotation_job (error_text err)])
  /\ forall Rotate_errs,
      fire {| cron.entries := [("@daily", RotateJob a)]; cron.running := true |}
           (Some err :: Rotate_errs) w
      = Panics (panic_string "Error occurred in log rotation")
               (extend w [Logger_Rotate (Some h);
                          Println in_rotation_job (error_text err)]).
Proof.
  intros Hh. split.
  - by apply run_failure.
  - intros Rotate_errs. unfold fire. simpl. rewrite Hh. run_M.
    unfold extend. simpl. by rewrite <- app_assoc.
Qed.

Lemma rotation_failure_is_fatal_witness :
  logger (sample_adapter "INFO" false true) = Some 0%nat
  /\ fire {| cron.entries :=
               [("@daily", RotateJob (sample_adapter "INFO" false true))];
             cron.running := true |} [Some disk_full] start
     = Panics (panic_string "Error occurred in log rotation")
              (extend start [Logger_Rotate (Some 0%nat);
                             Println in_rotation_job "no space left on device"]).
Proof.
  split; [reflexivity |].
  apply (rotation_failure_is_fatal (sample_adapter "INFO" false true) 0
           disk_full start).
  reflexivity.
Defined.

Lemma Destruct_enabled (a : LogAdapter) (w : World) (h : nat)
    (c : cron.Cron Job) :
  config.File (cfg a) = true -> logger a = Some h -> cr w = Some c ->
  Destruct a w
  = Returns tt {| loggers := loggers w; cr := Some (cron.Stop c);
                  detached := detached w;
                  trace := trace w ++ [Logger_Close (Some h)] |}.
Proof.
  intros HF Hh Hcr. unfold Destruct. rewrite HF, Hh. run_M.
  unfold on_cr. simpl. by rewrite Hcr.
Qed.

(** X11: the scheduler is one per process: a second [NewLogAdapter]
    displaces the scheduler of the first adapter, which stays running out
    of reach, and [Destruct] on the first adapter then stops the scheduler
    of the second. *)
Lemma displaced_scheduler_keeps_running (c1 c2 : config.LogConfig)
    (appCfg : config.AppConfig) (w : World) :
  config.File c1 = true ->
  exists a1 a2 w1 w2 w3,
    NewLogAdapter c1 appCfg w = Returns (Some a1, None) w1
    /\ NewLogAdapter c2 appCfg w1 = Returns (Some a2, None) w2
    /\ Destruct a1 w2 = Returns tt w3
    /\ cr w3 = Some {| cron.entries := [("@daily", RotateJob a2)];
                       cron.running := false |}
    /\ {| cron.entries := [("@daily", RotateJob a1)]; cron.running := true |}
       ∈ detached w3.
Proof.
  intros HF.
  destruct (NewLogAdapter_Returns c1 appCfg w)
    as (a1 & w1 & H1 & Hcfg1 & _ & _ & Hlg1 & Hcr1 & _).
  destruct (NewLogAdapter_Returns c2 appCfg w1)
    as (a2 & w2 & H2 & _ & _ & _ & _ & Hcr2 & Hdet2 & _).
  rewrite HF in Hlg1.
  eexists a1, a2, w1, w2, _. split; [exact H1 |]. split; [exact H2 |].
  split.
  - eapply Destruct_enabled; [by rewrite Hcfg1 | exact Hlg1 | exact Hcr2].
  - simpl. split; [reflexivity |].
    rewrite Hdet2, Hcr1. simpl. set_solver.
Qed.

(** C7: with the file sink enabled, [Destruct] calls [Close] on the file
    handle and stops the scheduler of the package, which then fires no job
    any more; with the file sink disabled, [Destruct] returns and leaves
    the world, and with it the handle and the scheduler, as they were. *)
Theorem Destruct_effect (a : LogAdapter) (w : World) :
  (config.File (cfg a) = true ->
   forall h c, logger a = Some h -> cr w = Some c ->
     Destruct a w
     = Returns tt {| loggers := loggers w; cr := Some (cron.Stop c);
                     detached := detached w;
                     trace := trace w ++ [Logger_Close (Some h)] |}
     /\ cron.running (cron.Stop c) = false
     /\ cron.entries (cron.Stop c) = cron.entries c
     /\ forall Rotate_errs w', fire (cron.Stop c) Rotate_errs w' = Returns tt w')
  /\ (config.File (cfg a) = false -> Destruct a w = Returns tt w).
Proof.
  split.
  - intros HF h c Hh Hcr. rewrite (Destruct_enabled a w h c HF Hh Hcr).
    repeat split.
  - intros HF. unfold Destruct. by rewrite HF.
Qed.

Lemma Destruct_effect_witness :
  (exists w w',
      NewLogAdapter (sample_config "INFO" true true) sample_app start
      = Returns (Some (sample_adapter "INFO" true true), None) w
      /\ Destruct (sample_adapter "INFO" true true) w = Returns tt w'
      /\ trace w' = [Logger_Close (Some 0%nat)]
      /\ cron.running <$> cr w' = Some false)
  /\ Destruct (sample_adapter "INFO" true false) start = Returns tt start.
Proof.
  split.
  - eexists _, _. split; [reflexivity |].
    match goal with
    | |- Destruct ?a ?w = _ /\ _ =>
        destruct (Destruct_effect a w) as [H _];
        destruct (H eq_refl 0%nat _ eq_refl eq_refl) as (HD & _)
    end.
    split; [exact HD |]. split; reflexivity.
  - by apply (Destruct_effect (sample_adapter "INFO" true false) start).
Defined.

(** C10: [NewLogAdapter] registers the daily job and starts the scheduler
    whether or not the file sink is enabled.  With the file sink disabled
    no [lumberjack.Logger] is made and the handle stays nil, so the job,
    when the scheduler fires, calls [Rotate] on the nil handle. *)
Theorem rotation_job_registered_unconditionally (c : config.LogConfig)
    (appCfg : config.AppConfig) (w : World) :
  exists a w' s,
    NewLogAdapter c appCfg w = Returns (Some a, None) w'
    /\ cr w' = Some s
    /\ s = {| cron.entries := [("@daily", RotateJob a)]; cron.running := true |}
    /\ (if config.File c
        then is_Some (logger a)
        else logger a = None
             /\ loggers w' = loggers w
             /\ forall Rotate_errs w2,
                 fire s Rotate_errs w2
                 = Panics panic_nil_dereference
                          (extend w2 [Logger_Rotate None])).
Proof.
  unfold NewLogAdapter, initLogFile. simpl.
  destruct (config.File c) eqn:HF; simpl.
  - eexists _, _, _. repeat split. simpl. eauto.
  - eexists _, _, _. repeat split.
Qed.

(** ** Goroutine identifier: edge cases *)





Lemma goid_runtime_header_witness : goid (sample_extern None) = mret 7.
Proof.
  apply (goid_runtime_header (sample_extern None) 7
           ("running]:" +:+ LF +:+ "main.main()")); [lia | reflexivity].
Defined.


(** ** Record layout: the number of fields *)

Lemma length_Split_from (sep : ascii) (s acc : string) :
  length (Split_from acc s sep) = S (count_byte sep s).
Proof.
  revert acc. induction s as [| c s IH]; intros acc; [done |].
  simpl. destruct (decide (c = sep)); simpl; by rewrite IH.
Qed.

Lemma count_byte_append (c : ascii) (s1 s2 : string) :
  count_byte c (s1 +:+ s2) = (count_byte c s1 + count_byte c s2)%nat.
Proof.
  induction s1 as [| c1 s1 IH]; [done |].
  rewrite append_cons. simpl. rewrite IH. lia.
Qed.

Lemma count_byte_zero (c : ascii) (s : string) :
  count_byte c s = 0%nat <-> occurs c s = false.
Proof.
  induction s as [| c' s IH]; [done |]. simpl.
  destruct (decide (c' = c)) as [-> | Hne].
  - rewrite bool_decide_eq_true_2 by done. simpl. split; [lia | done].
  - rewrite bool_decide_eq_false_2 by done. simpl. exact IH.
Qed.

Lemma count_byte_concat (c : ascii) (f : string) (fs : list string) :
  count_byte c (String.concat (String c "") (f :: fs))
  = (length fs + sum_list (count_byte c <$> f :: fs))%nat.
Proof.
  revert f. induction fs as [| g fs IH]; intros f.
  - simpl. lia.
  - change (String.concat (String c "") (f :: g :: fs))
      with (f +:+ String c "" +:+ String.concat (String c "") (g :: fs)).
    rewrite !count_byte_append, IH. simpl.
    rewrite decide_True by done. lia.
Qed.

Lemma sum_count_byte_zero (c : ascii) (ts : list string) :
  sum_list (count_byte c <$> ts) = 0%nat
  <-> Forall (fun t => occurs c t = false) ts.
Proof.
  induction ts as [| t ts IH]; simpl.
  - split; [by constructor | done].
  - rewrite Forall_cons, <- IH, <- count_byte_zero.
    unfold fmap. lia.
Qed.

(** X4: split at "|", the record of [formatMessage] has nine fields and
    one more for every "|" in the texts it copies (timestamp, hostname,
    level, appName, msName, requestId, message): never fewer than nine, and
    exactly nine if and only if none of these texts holds a "|". *)
Theorem formatMessage_field_count (a : LogAdapter) (logLevel message : string)
    (options : list iface) (e : Extern) (w w1 : World) (m : string) :
  formatMessage a logLevel message options e w = Returns m w1 ->
  length (Split m pipe)
  = (9 + sum_list (count_byte pipe <$> copied a logLevel message e))%nat
  /\ (length (Split m pipe) = 9%nat
      <-> Forall (fun t => occurs pipe t = false)
                 (copied a logLevel message e)).
Proof.
  intros H. apply formatMessage_inv in H as (goId & _ & -> & _).
  assert (length (Split (Join (fields a logLevel message goId e) "|") pipe)
          = (9 + sum_list (count_byte pipe <$> copied a logLevel message e))%nat)
    as Hlen.
  { unfold Split, Join, fields. rewrite length_Split_from.
    change "|" with (String pipe "").
    rewrite count_byte_concat. unfold copied.
    assert (count_byte pipe ("[" +:+ Itoa goId +:+ "]") = 0%nat) as Hz
      by (by apply count_byte_zero, goId_field_free).
    simpl in *. rewrite Hz. lia. }
  split; [exact Hlen |].
  rewrite Hlen, <- sum_count_byte_zero. lia.
Qed.

Lemma formatMessage_field_count_witness :
  length (Split (sample_record "disk|full|") pipe) = 11%nat.
Proof.
  destruct (formatMessage_field_count
              (sample_adapter "DEBUG" true false) "INFO" "disk|full|" []
              (sample_extern None) start start (sample_record "disk|full|")
              eq_refl) as [H _].
  rewrite H. reflexivity.
Defined.

(** ** The log methods: every outcome *)

Lemma sink_records (a : LogAdapter) (m : string) (e : Extern) :
  console_records (hostname_diagnostic e ++ console_sink a m ++ file_sink a m e)
  = (if config.Console (cfg a) then [m] else [])
  /\ file_records (hostname_diagnostic e ++ console_sink a m
                   ++ file_sink a m e)
     = (if config.File (cfg a) then [(logger a, m +:+ LF)] else []).
Proof.
  unfold console_records, file_records. rewrite !omap_app.
  unfold hostname_diagnostic, console_sink, file_sink.
  destruct (os_Hostname e).2, (config.Console (cfg a)),
    (config.File (cfg a)), (Write_err e); split; reflexivity.
Qed.

(** What [log] leaves behind in every case: it returns unless [goid]
    panics or the enabled file sink has a nil handle. *)
Lemma log_outcome a logLevel message options e w :
  log a logLevel message options e w
  = if negb (isLoggable a logLevel) then Returns tt w
    else match Fields (TrimPrefix (String.substring 0 64 (runtime_Stack e))
                                  "goroutine ") with
         | [] => Panics panic_index_out_of_range w
         | idField :: _ =>
             match Atoi idField with
             | None => Panics (panic_goid idField) w
             | Some goId =>
                 let m := Join (fields a logLevel message goId e) "|" in
                 let new := hostname_diagnostic e ++ console_sink a m in
                 if negb (config.File (cfg a))
                 then Returns tt (extend w new)
                 else match logger a with
                      | None =>
                          Panics panic_nil_dereference
                                 (extend w (new ++ [Logger_Write None (m +:+ LF)]))
                      | Some h => Returns tt (extend w (new ++ file_sink a m e))
                      end
             end
         end.
Proof.
  unfold log. destruct (isLoggable a logLevel); [| done]. simpl.
  unfold mbind at 1, M_bind at 1.
  destruct (Fields _) as [| idField fs] eqn:HF.
  { rewrite (formatMessage_Panics _ _ _ _ _ panic_index_out_of_range);
      [done | unfold goid; by rewrite HF]. }
  destruct (Atoi idField) as [goId |] eqn:HA.
  2: { rewrite (formatMessage_Panics _ _ _ _ _ (panic_goid idField));
         [done | unfold goid; by rewrite HF, HA]. }
  rewrite (formatMessage_Returns _ _ _ _ _ goId)
    by (unfold goid; by rewrite HF, HA).
  unfold mbind, M_bind. rewrite logToConsole_Returns, extend_extend.
  simpl. unfold logToFile, file_sink.
  destruct (config.File (cfg a)); simpl; [| done].
  destruct (logger a) as [h |]; run_M.
  - destruct (Write_err e) as [err |]; run_M;
      unfold extend; simpl; by rewrite <- !app_assoc.
  - unfold extend. simpl. by rewrite <- !app_assoc.
Qed.

(** X5: the calls one passing call of a log method makes, in order: the
    hostname diagnostic if [os.Hostname] answered an error, the record on
    the console if enabled, the write of the record and a line feed on the
    file handle if enabled, and the text of the write error if the write
    answered one.  A hostname failure does not stop the call: the record
    then carries the name that came back with the error. *)
Theorem log_method_trace (a : LogAdapter) (L : string)
    (f : LogAdapter -> string -> list iface -> Extern -> M unit)
    (message : string) (options : list iface) (e : Extern) (w : World)
    (goId : Z) :
  In (L, f) log_methods ->
  isLoggable a L = true ->
  constructed a ->
  goid e = mret goId ->
  f a message options e w
  = Returns tt
      (extend w
         ((if (os_Hostname e).2 is Some _
           then [Println in_formatMessage
                         "Error occurred at requesting host name"]
           else [])
          ++ (if config.Console (cfg a)
              then [Println in_logToConsole
                            (Join (fields a L message goId e) "|")]
              else [])
          ++ (if config.File (cfg a)
              then Logger_Write (logger a)
                                (Join (fields a L message goId e) "|" +:+ LF)
                   :: (if Write_err e is Some err
                       then [Println in_logToFile (error_text err)] else [])
              else []))).
Proof.
  intros Hin Hlog Hc Hg. destruct (log_methods_log L f Hin) as [_ Hf].
  rewrite Hf. exact (log_loggable _ _ _ _ _ _ _ Hlog Hg Hc).
Qed.

Lemma log_method_trace_witness :
  Info (sample_adapter "INFO" true true) "x" []
       (extern_with "goroutine 7 [running]:" (Some no_hostname) None) start
  = Returns tt
      (extend start
         [Println in_formatMessage "Error occurred at requesting host name";
          Println in_logToConsole
            ("2020-06-16 00:39:15.7164|[7]||INFO|application-log|"
             +:+ "clean-base-template|clean-base-template-ms|"
             +:+ "2ea75038-bc06-45c1-523a-0edd7978eab1|x");
          Logger_Write (Some 0%nat)
            ("2020-06-16 00:39:15.7164|[7]||INFO|application-log|"
             +:+ "clean-base-template|clean-base-template-ms|"
             +:+ "2ea75038-bc06-45c1-523a-0edd7978eab1|x" +:+ LF)]).
Proof.
  rewrite (log_method_trace (sample_adapter "INFO" true true) "INFO" Info "x"
             [] _ start 7);
    [reflexivity | simpl; tauto | reflexivity | intros _; simpl; eauto
     | reflexivity].
Defined.

(** X6: with both sinks disabled a passing call is still not a no-op: it
    formats the message all the same, so it panics when [goid] panics and
    it prints the hostname diagnostic when [os.Hostname] fails; it emits
    no record. *)
Theorem log_method_without_sinks (a : LogAdapter) (L : string)
    (f : LogAdapter -> string -> list iface -> Extern -> M unit)
    (message : string) (options : list iface) (e : Extern) (w : World) :
  In (L, f) log_methods ->
  isLoggable a L = true ->
  config.Console (cfg a) = false ->
  config.File (cfg a) = false ->
  (forall p, goid e = raise p -> f a message options e w = Panics p w)
  /\ (forall goId, goid e = mret goId ->
      f a message options e w
      = Returns tt
          (extend w (if (os_Hostname e).2 is Some _
                     then [Println in_formatMessage
                                   "Error occurred at requesting host name"]
                     else []))).
Proof.
  intros Hin Hlog HC HF. destruct (log_methods_log L f Hin) as [_ Hf].
  rewrite Hf. split.
  - intros p Hg. unfold log. rewrite Hlog. simpl.
    unfold mbind, M_bind. by rewrite (formatMessage_Panics _ _ _ _ _ _ _ Hg).
  - intros goId Hg.
    assert (constructed a) as Hc by (intros H; by rewrite HF in H).
    rewrite (log_loggable _ _ _ _ _ _ _ Hlog Hg Hc).
    unfold console_sink, file_sink, hostname_diagnostic.
    by rewrite HC, HF, !app_nil_r.
Qed.

Lemma log_method_without_sinks_witness :
  Warn (sample_adapter "DEBUG" false false) "x" []
       (extern_with "" None None) start
  = Panics panic_index_out_of_range start
  /\ Warn (sample_adapter "DEBUG" false false) "x" []
          (extern_with "goroutine 7 [running]:" (Some no_hostname) None) start
     = Returns tt
         (extend start [Println in_formatMessage
                                "Error occurred at requesting host name"]).
Proof.
  split.
  - refine (proj1 (log_method_without_sinks
                     (sample_adapter "DEBUG" false false) "WARN" Warn "x" []
                     (extern_with "" None None) start _
                     eq_refl eq_refl eq_refl)
                  panic_index_out_of_range eq_refl).
    simpl. tauto.
  - refine (proj2 (log_method_without_sinks
                     (sample_adapter "DEBUG" false false) "WARN" Warn "x" []
                     (extern_with "goroutine 7 [running]:" (Some no_hostname)
                                  None)
                     start _ eq_refl eq_refl eq_refl)
                  7 eq_refl).
    simpl. tauto.
Defined.

(** X7: whatever happens, a log method leaves the [lumberjack.Logger]
    structs and the schedulers as they were and only adds calls to the
    trace, none of them a [Rotate] or a [Close]. *)
Theorem log_method_frame (a : LogAdapter) (L : string)
    (f : LogAdapter -> string -> list iface -> Extern -> M unit)
    (message : string) (options : list iface) (e : Extern) (w : World) :
  In (L, f) log_methods ->
  loggers (world_of (f a message options e w)) = loggers w
  /\ cr (world_of (f a message options e w)) = cr w
  /\ detached (world_of (f a message options e w)) = detached w
  /\ exists new,
      trace (world_of (f a message options e w)) = trace w ++ new
      /\ handle_events new = [].
Proof.
  intros Hin. destruct (log_methods_log L f Hin) as [_ Hf].
  rewrite Hf, log_outcome.
  assert (forall m, handle_events (hostname_diagnostic e ++ console_sink a m)
                    = []) as Hnew.
  { intros m. unfold handle_events, hostname_diagnostic, console_sink.
    rewrite omap_app. by destruct (os_Hostname e).2, (config.Console (cfg a)). }
  destruct (negb (isLoggable a L)).
  { repeat split. exists []. by rewrite app_nil_r. }
  destruct (Fields _) as [| idField fs].
  { repeat split. exists []. by rewrite app_nil_r. }
  destruct (Atoi idField) as [goId |].
  2: { repeat split. exists []. by rewrite app_nil_r. }
  simpl. destruct (negb (config.File (cfg a))) eqn:HF.
  { repeat split. eexists. split; [reflexivity | apply Hnew]. }
  destruct (logger a) as [h |] eqn:Hh; simpl; repeat split;
    (eexists; split; [reflexivity |]);
    unfold handle_events in *; rewrite omap_app, Hnew; [| done].
  unfold file_sink. destruct (config.File (cfg a)); [| done].
  by destruct (Write_err e).
Qed.

Lemma log_method_frame_witness :
  handle_events
    (trace (world_of (Error (sample_adapter "ERROR" true true) "x" []
                            (sample_extern (Some disk_full)) start))) = []
  /\ length
       (trace (world_of (Error (sample_adapter "ERROR" true true) "x" []
                               (sample_extern (Some disk_full)) start)))
     = 3%nat.
Proof.
  split; [| reflexivity].
  destruct (log_method_frame (sample_adapter "ERROR" true true) "ERROR" Error
              "x" [] (sample_extern (Some disk_full)) start)
    as (_ & _ & _ & new & Htr & Hnew); [simpl; tauto |].
  rewrite Htr. exact Hnew.
Defined.

(** X8: a log method panics only when it passed the filter and either
    [goid] panicked, before anything was printed or written, or the file
    sink is enabled on a nil handle.  A call below the threshold, a failing
    write and a failing hostname lookup never make it panic. *)
Theorem log_method_panics (a : LogAdapter) (L : string)
    (f : LogAdapter -> string -> list iface -> Extern -> M unit)
    (message : string) (options : list iface) (e : Extern) (w w' : World)
    (p : panic) :
  In (L, f) log_methods ->
  f a message options e w = Panics p w' ->
  isLoggable a L = true
  /\ ((goid e = raise p /\ w' = w)
      \/ (p = panic_nil_dereference /\ config.File (cfg a) = true
          /\ logger a = None /\ exists goId, goid e = mret goId)).
Proof.
  intros Hin. destruct (log_methods_log L f Hin) as [_ Hf].
  rewrite Hf, log_outcome. unfold goid.
  destruct (isLoggable a L); simpl; [| done].
  destruct (Fields _) as [| idField fs].
  { intros H. inversion H. split; [done |]. by left. }
  destruct (Atoi idField) as [goId |].
  2: { intros H. inversion H. split; [done |]. by left. }
  destruct (config.File (cfg a)); simpl; [| done].
  destruct (logger a) as [h |]; [done |].
  intros H. inversion H. split; [done |]. right. eauto.
Qed.

Lemma log_method_panics_witness :
  isLoggable (sample_adapter "DEBUG" true true) "INFO" = true
  /\ goid (extern_with "" None (Some disk_full))
     = raise panic_index_out_of_range.
Proof.
  destruct (log_method_panics (sample_adapter "DEBUG" true true) "INFO" Info
              "x" [] (extern_with "" None (Some disk_full))
              start start panic_index_out_of_range)
    as [H1 H2]; [simpl; tauto | reflexivity |].
  split; [exact H1 | reflexivity].
Defined.

(** ** Calls one after the other *)

Lemma record_of_Some (a : LogAdapter) (c : call) (goId : Z) :
  goid (call_extern c) = mret goId ->
  record_of a c
  = Some (Join (fields a (call_level c) (call_message c) goId (call_extern c))
               "|").
Proof.
  intros Hg. unfold record_of.
  by rewrite (formatMessage_Returns _ _ _ _ _ _ _ Hg).
Qed.

(** X9: calls of the log methods made one after the other on an adapter
    all return, and each enabled sink receives exactly the records of the
    calls that pass the filter, one per call and in the order of the
    calls: as console lines, and as writes of record and line feed on the
    adapter's handle. *)
Theorem log_all_records (a : LogAdapter) (cs : list call) (w : World) :
  constructed a ->
  Forall (fun c => In (call_level c, call_method c) log_methods
                   /\ exists goId, goid (call_extern c) = mret goId) cs ->
  exists new,
    log_all a cs w = Returns tt (extend w new)
    /\ console_records new
       = (if config.Console (cfg a) then records_of a cs else [])
    /\ file_records new
       = (if config.File (cfg a)
          then (fun m => (logger a, m +:+ LF)) <$> records_of a cs
          else []).
Proof.
  intros Hc Hcs. revert w.
  induction Hcs as [| c cs [Hin [goId Hg]] _ IH]; intros w.
  - exists []. rewrite extend_nil. simpl.
    by destruct (config.Console (cfg a)), (config.File (cfg a)).
  - destruct (log_methods_log _ _ Hin) as [_ Hf].
    simpl. unfold mbind, M_bind. rewrite Hf. unfold records_of. simpl.
    destruct (isLoggable a (call_level c)) eqn:Hlog.
    + rewrite (log_loggable _ _ _ _ _ _ _ Hlog Hg Hc).
      rewrite (record_of_Some _ _ _ Hg).
      set (m := Join (fields a (call_level c) (call_message c) goId
                             (call_extern c)) "|").
      set (evs := hostname_diagnostic (call_extern c) ++ console_sink a m
                  ++ file_sink a m (call_extern c)).
      destruct (IH (extend w evs)) as (new & Hrun & Hcon & Hfile).
      exists (evs ++ new). rewrite Hrun, extend_extend.
      split; [reflexivity |].
      destruct (sink_records a m (call_extern c)) as [Hc1 Hf1].
      fold evs in Hc1, Hf1.
      unfold console_records, file_records in *.
      rewrite !omap_app, Hcon, Hfile, Hc1, Hf1.
      by destruct (config.Console (cfg a)), (config.File (cfg a)).
    + rewrite (log_not_loggable _ _ _ _ _ _ Hlog).
      destruct (IH w) as (new & Hrun & Hcon & Hfile).
      exists new. by rewrite Hrun.
Qed.

Lemma log_all_records_witness :
  exists new,
    log_all (sample_adapter "WARN" false true)
            [{| call_level := "INFO"; call_method := Info;
                call_message := "a"; call_options := [];
                call_extern := sample_extern None |};
             {| call_level := "DEBUG"; call_method := Debug;
                call_message := "b"; call_options := [];
                call_extern := sample_extern None |};
             {| call_level := "INFO"; call_method := Info;
                call_message := "c"; call_options := [];
                call_extern := sample_extern (Some disk_full) |}] start
    = Returns tt (extend start new)
    /\ console_records new = []
    /\ file_records new
       = [(Some 0%nat, sample_record "a" +:+ LF);
          (Some 0%nat, sample_record "c" +:+ LF)].
Proof.
  apply (log_all_records (sample_adapter "WARN" false true)).
  - intros _. simpl. eauto.
  - repeat constructor; simpl; try tauto; by exists 7.
Defined.

(** ** Life cycle: handles and schedulers *)

(** X10: [NewLogAdapter] makes no call on any collaborator that the trace
    records: nothing is printed and no file is opened or written.  It
    leaves every existing [lumberjack.Logger] as it is.  With the file
    sink enabled it allocates exactly one, at a fresh address that becomes
    the adapter's handle, with Filename the directory followed by
    "/go-base-template.log", LocalTime true and the thresholds of the
    configuration; with the file sink disabled it allocates none. *)
Theorem NewLogAdapter_allocation (c : config.LogConfig)
    (appCfg : config.AppConfig) (w : World) :
  exists a w',
    NewLogAdapter c appCfg w = Returns (Some a, None) w'
    /\ trace w' = trace w
    /\ (forall h lg, loggers w !! h = Some lg -> loggers w' !! h = Some lg)
    /\ (if config.File c
        then exists h,
            logger a = Some h
            /\ loggers w !! h = None
            /\ loggers w' !! h
               = Some {| lumberjack.Filename :=
                           config.Directory c +:+ "/go-base-template.log";
                         lumberjack.LocalTime := true;
                         lumberjack.MaxSize := config.MaxSize c;
                         lumberjack.MaxBackups := config.MaxBackup c;
                         lumberjack.MaxAge := config.MaxAge c;
                         lumberjack.Compress := config.Compress c |}
            /\ length (loggers w') = S (length (loggers w))
        else logger a = None /\ loggers w' = loggers w).
Proof.
  unfold NewLogAdapter, initLogFile. simpl.
  destruct (config.File c); simpl.
  - eexists _, _. split; [reflexivity |]. simpl. split; [done |]. split.
    + intros h lg Hh. by apply lookup_app_l_Some.
    + exists (length (loggers w)). split; [done |]. split.
      * by apply lookup_ge_None.
      * split; [by apply list_lookup_middle |].
        rewrite length_app. simpl. lia.
  - eexists _, _. split; [reflexivity |]. simpl. done.
Qed.

(** X12: two adapters made with the file sink enabled and the same
    directory have different handles, yet both [lumberjack.Logger]
    structs name the same file. *)
Theorem two_adapters_one_file (c1 c2 : config.LogConfig)
    (appCfg : config.AppConfig) (w : World) :
  config.File c1 = true ->
  config.File c2 = true ->
  config.Directory c1 = config.Directory c2 ->
  exists a1 a2 w1 w2 h1 h2 lg1 lg2,
    NewLogAdapter c1 appCfg w = Returns (Some a1, None) w1
    /\ NewLogAdapter c2 appCfg w1 = Returns (Some a2, None) w2
    /\ logger a1 = Some h1 /\ logger a2 = Some h2 /\ h1 <> h2
    /\ loggers w2 !! h1 = Some lg1 /\ loggers w2 !! h2 = Some lg2
    /\ lumberjack.Filename lg1 = lumberjack.Filename lg2.
Proof.
  intros HF1 HF2 Hdir.
  unfold NewLogAdapter, initLogFile. simpl. rewrite HF1. simpl.
  rewrite HF2. simpl.
  eexists _, _, _, _, (length (loggers w)), (S (length (loggers w))), _, _.
  split; [reflexivity |]. split; [reflexivity |]. simpl.
  split; [reflexivity |].
  split; [f_equal; rewrite length_app; simpl; lia |].
  split; [lia |].
  split; [apply lookup_app_l_Some; by apply list_lookup_middle |].
  split; [apply list_lookup_middle; rewrite length_app; simpl; lia |].
  simpl. by rewrite Hdir.
Qed.

Lemma two_adapters_one_file_witness :
  exists a1 a2 w1 w2,
    NewLogAdapter (sample_config "INFO" true true) sample_app start
    = Returns (Some a1, None) w1
    /\ NewLogAdapter (sample_config "DEBUG" false true) sample_app w1
       = Returns (Some a2, None) w2
    /\ logger a1 <> logger a2
    /\ lumberjack.Filename <$> loggers w2
       = ["/var/log/app/go-base-template.log";
          "/var/log/app/go-base-template.log"].
Proof.
  destruct (two_adapters_one_file (sample_config "INFO" true true)
              (sample_config "DEBUG" false true) sample_app start
              eq_refl eq_refl eq_refl)
    as (a1 & a2 & w1 & w2 & h1 & h2 & lg1 & lg2 & H1 & H2 & Hh1 & Hh2 & Hne
        & _).
  exists a1, a2, w1, w2. split; [exact H1 |]. split; [exact H2 |].
  split; [rewrite Hh1, Hh2; congruence |].
  vm_compute in H1. inversion H1; subst.
  vm_compute in H2. inversion H2; subst. reflexivity.
Defined.

Lemma displaced_scheduler_keeps_running_witness :
  exists a1 a2 w1 w2 w3,
    NewLogAdapter (sample_config "INFO" true true) sample_app start
    = Returns (Some a1, None) w1
    /\ NewLogAdapter (sample_config "INFO" true false) sample_app w1
       = Returns (Some a2, None) w2
    /\ Destruct a1 w2 = Returns tt w3
    /\ cr w3 = Some {| cron.entries := [("@daily", RotateJob a2)];
                       cron.running := false |}
    /\ {| cron.entries := [("@daily", RotateJob a1)]; cron.running := true |}
       ∈ detached w3.
Proof.
  apply (displaced_scheduler_keeps_running (sample_config "INFO" true true)
           (sample_config "INFO" true false) sample_app start).
  reflexivity.
Defined.

(** X13: for an adapter without file sink [Destruct] stops nothing: the
    scheduler that [NewLogAdapter] started is still running afterwards,
    and when it fires the job faults on the nil handle. *)
Theorem Destruct_console_only_keeps_scheduler (c : config.LogConfig)
    (appCfg : config.AppConfig) (w : World) :
  config.File c = false ->
  exists a w1 s,
    NewLogAdapter c appCfg w = Returns (Some a, None) w1
    /\ Destruct a w1 = Returns tt w1
    /\ cr w1 = Some s
    /\ cron.running s = true
    /\ forall Rotate_errs w2,
        fire s Rotate_errs w2
        = Panics panic_nil_dereference (extend w2 [Logger_Rotate None]).
Proof.
  intros HF.
  destruct (NewLogAdapter_Returns c appCfg w)
    as (a & w1 & H & Hcfg & _ & _ & Hlg & Hcr & _).
  rewrite HF in Hlg.
  exists a, w1, {| cron.entries := [("@daily", RotateJob a)];
                   cron.running := true |}.
  split; [exact H |]. split.
  - unfold Destruct. by rewrite Hcfg, HF.
  - split; [exact Hcr |]. split; [done |].
    intros Rotate_errs w2. unfold fire. simpl. rewrite Hlg. by run_M.
Qed.

Lemma Destruct_console_only_keeps_scheduler_witness :
  exists a w1 s,
    NewLogAdapter (sample_config "INFO" true false) sample_app start
    = Returns (Some a, None) w1
    /\ Destruct a w1 = Returns tt w1
    /\ cr w1 = Some s
    /\ cron.running s = true
    /\ forall Rotate_errs w2,
        fire s Rotate_errs w2
        = Panics panic_nil_dereference (extend w2 [Logger_Rotate None]).
Proof.
  apply (Destruct_console_only_keeps_scheduler
           (sample_config "INFO" true false) sample_app start).
  reflexivity.
Defined.

(** X14: [Destruct] can be called again on an adapter with file sink: the
    second call returns as well, calls [Close] on the handle a second
    time and leaves the scheduler stopped, with its entries kept. *)
Theorem Destruct_twice (a : LogAdapter) (w : World) (h : nat)
    (c : cron.Cron Job) :
  config.File (cfg a) = true -> logger a = Some h -> cr w = Some c ->
  (Destruct a;; Destruct a) w
  = Returns tt {| loggers := loggers w;
                  cr := Some {| cron.entries := cron.entries c;
                                cron.running := false |};
                  detached := detached w;
                  trace := trace w ++ [Logger_Close (Some h);
                                       Logger_Close (Some h)] |}.
Proof.
  intros HF Hh Hcr. unfold mbind, M_bind.
  rewrite (Destruct_enabled a w h c HF Hh Hcr).
  erewrite Destruct_enabled; [| exact HF | exact Hh | reflexivity].
  simpl. by rewrite <- app_assoc.
Qed.

Lemma Destruct_twice_witness :
  exists w',
    (Destruct (sample_adapter "INFO" true true);;
     Destruct (sample_adapter "INFO" true true))
      (sample_world "INFO" true true) = Returns tt w'
    /\ trace w' = [Logger_Close (Some 0%nat); Logger_Close (Some 0%nat)]
    /\ cron.running <$> cr w' = Some false.
Proof.
  eexists. split.
  - apply (Destruct_twice (sample_adapter "INFO" true true)
             (sample_world "INFO" true true) 0%nat
             (sample_scheduler "INFO" true true)); reflexivity.
  - split; reflexivity.
Defined.

(** X15: the adapter does not remember that it was destructed: a log
    method called after [Destruct] passes the same filter and writes the
    record on the same handle, after the [Close]. *)
Theorem log_after_Destruct (a : LogAdapter) (L : string)
    (f : LogAdapter -> string -> list iface -> Extern -> M unit)
    (message : string) (options : list iface) (e : Extern) (w : World)
    (h : nat) (c : cron.Cron Job) (goId : Z) :
  In (L, f) log_methods ->
  isLoggable a L = true ->
  config.File (cfg a) = true -> logger a = Some h -> cr w = Some c ->
  goid e = mret goId ->
  exists w',
    (Destruct a;; f a message options e) w = Returns tt w'
    /\ cr w' = Some (cron.Stop c)
    /\ file_records (trace w')
       = file_records (trace w)
         ++ [(Some h, Join (fields a L message goId e) "|" +:+ LF)]
    /\ handle_events (trace w')
       = handle_events (trace w) ++ [Logger_Close (Some h)].
Proof.
  intros Hin Hlog HF Hh Hcr Hg.
  destruct (log_methods_log L f Hin) as [_ Hf].
  assert (constructed a) as Hc by (intros _; rewrite Hh; eauto).
  unfold mbind, M_bind. rewrite (Destruct_enabled a w h c HF Hh Hcr), Hf.
  rewrite (log_loggable _ _ _ _ _ _ _ Hlog Hg Hc).
  set (m := Join (fields a L message goId e) "|").
  set (evs := hostname_diagnostic e ++ console_sink a m ++ file_sink a m e).
  destruct (sink_records a m e) as [_ Hfile]. fold evs in Hfile.
  assert (handle_events evs = []) as Hnone.
  { unfold evs, handle_events, hostname_diagnostic, console_sink, file_sink.
    rewrite !omap_app.
    by destruct (os_Hostname e).2, (config.Console (cfg a)),
         (config.File (cfg a)), (Write_err e). }
  eexists. split; [reflexivity |]. unfold extend. cbn [trace cr].
  split; [done |].
  unfold file_records, handle_events in *.
  rewrite !(omap_app _ _ evs), Hfile, Hnone, !omap_app, HF, Hh. simpl.
  by rewrite !app_nil_r.
Qed.

Lemma log_after_Destruct_witness :
  exists w',
    (Destruct (sample_adapter "INFO" false true);;
     Info (sample_adapter "INFO" false true) "late" [] (sample_extern None))
      (sample_world "INFO" false true) = Returns tt w'
    /\ trace w' = [Logger_Close (Some 0%nat);
                   Logger_Write (Some 0%nat) (sample_record "late" +:+ LF)].
Proof.
  destruct (log_after_Destruct (sample_adapter "INFO" false true) "INFO" Info
              "late" [] (sample_extern None) (sample_world "INFO" false true)
              0%nat (sample_scheduler "INFO" false true) 7)
    as (w' & Hrun & _);
    [simpl; tauto | reflexivity | reflexivity | reflexivity | reflexivity
     | reflexivity |].
  eexists. split; reflexivity.
Defined.

(** X16: the job that [NewLogAdapter] registers for an adapter with file
    sink rotates the handle the adapter writes to: when the scheduler
    fires and [Rotate] answers no error, the firing returns after exactly
    one [Rotate] on that handle and prints nothing. *)
Theorem rotation_job_rotates_the_write_handle (c : config.LogConfig)
    (appCfg : config.AppConfig) (w : World) :
  config.File c = true ->
  exists a w1 s h,
    NewLogAdapter c appCfg w = Returns (Some a, None) w1
    /\ cr w1 = Some s
    /\ logger a = Some h
    /\ (forall Rotate_errs w2,
           fire s (None :: Rotate_errs) w2
           = Returns tt (extend w2 [Logger_Rotate (Some h)]))
    /\ (forall m e, file_records (file_sink a m e)
                    = [(Some h, m +:+ LF)]).
Proof.
  intros HF.
  destruct (NewLogAdapter_Returns c appCfg w)
    as (a & w1 & H & Hcfg & _ & _ & Hlg & Hcr & _).
  rewrite HF in Hlg.
  exists a, w1, {| cron.entries := [("@daily", RotateJob a)];
                   cron.running := true |}, (length (loggers w)).
  split; [exact H |]. split; [exact Hcr |]. split; [exact Hlg |]. split.
  - intros Rotate_errs w2. unfold fire. simpl. rewrite Hlg. by run_M.
  - intros m e. unfold file_sink. rewrite Hcfg, HF, Hlg.
    by destruct (Write_err e).
Qed.

Lemma rotation_job_rotates_the_write_handle_witness :
  exists a w1 s h,
    NewLogAdapter (sample_config "INFO" false true) sample_app start
    = Returns (Some a, None) w1
    /\ cr w1 = Some s
    /\ logger a = Some h
    /\ (forall Rotate_errs w2,
           fire s (None :: Rotate_errs) w2
           = Returns tt (extend w2 [Logger_Rotate (Some h)]))
    /\ (forall m e, file_records (file_sink a m e)
                    = [(Some h, m +:+ LF)]).
Proof.
  apply (rotation_job_rotates_the_write_handle
           (sample_config "INFO" false true) sample_app start).
  reflexivity.
Defined.

(** ** Severity filter: the four methods *)

(** X17: what the filter means for each method, for every configured
    minimum: [Info] always passes; [Warn] passes unless the minimum is
    "INFO"; [Debug] passes unless the minimum is "INFO" or "WARN"; [Error]
    passes only when the minimum is "ERROR" or no known name. *)
Theorem isLoggable_by_method (a : LogAdapter) :
  isLoggable a "INFO" = true
  /\ (isLoggable a "WARN" = true <-> config.Level (cfg a) <> "INFO")
  /\ (isLoggable a "DEBUG" = true
      <-> config.Level (cfg a) <> "INFO" /\ config.Level (cfg a) <> "WARN")
  /\ (isLoggable a "ERROR" = true
      <-> config.Level (cfg a) = "ERROR" \/ ~ known (config.Level (cfg a))).
Proof.
  rewrite !isLoggable_rank, !Z.geb_le.
  change (rank "INFO") with 4. change (rank "WARN") with 3.
  change (rank "DEBUG") with 2. change (rank "ERROR") with 1.
  unfold known, rank.
  repeat case_decide; repeat split; intros; try lia; try congruence;
    try tauto.
Qed.
